(** * Deployment of VCL to a Fastly service: model of [src/tasks/deploy.js]

    The [task] function of [deploy.js] drives a remote configuration client
    through clone / delete / upload / set-main / validate / activate.  This
    file embeds it as a computation in a state-and-exception monad over

    - the state of the remote service (abstract, owned by the client),
    - [process.env],
    - the trace of client methods invoked so far,
    - the lines handed to the logger,

    and proves the ordering and failure properties of the deployment. *)

From Stdlib Require Import ZArith List Lia.
From stdpp Require Import base strings gmap list pretty.

Local Open Scope Z_scope.
Local Open Scope string_scope.

(** ** Values exchanged with the remote client *)

(** An element of the array resolved by [fastly.getServices()].  Version
    numbers are the integers the remote end counts versions with. *)
Record Service := {
  service_id : string;
  service_name : string;
  service_version : Z
}.

(** A VCL file: produced by [loadVcl], listed by [fastly.getVcl]. *)
Record Vcl := {
  vcl_name : string;
  vcl_content : string
}.

(** The object resolved by [fastly.cloneVersion]. *)
Record CloneResponse := { number : Z }.

(** The object resolved by [fastly.validateVersion]. *)
Record ValidationResponse := {
  status : string;
  diagnostics : list string
}.

(** A value coming from outside the module as a rejection reason or as an
    exception of a collaborator.  The module-private [VCL_VALIDATION_ERROR]
    symbol is never exported, so no such value has it as its [type]; what
    matters to the code is only whether a property can be read off the value
    ([null] and [undefined] raise on any property read). *)
Inductive reason :=
  | Nullish
  | Foreign (descr : string).

(** Everything the generator body can throw. *)
Inductive thrown :=
  | NewError (message : string)
      (* [new Error(message)], thrown by the task itself *)
  | ValidationError (validation : reason)
      (* [new Error('VCL Validation Error')] with [type = VCL_VALIDATION_ERROR]
         and [validation = err] *)
  | TypeError (property : string)
      (* raised by the runtime when [property] is read off undefined/null *)
  | Raised (r : reason).
      (* a rejection reason or collaborator exception, passed on as it is *)

Inductive settled (A : Type) :=
  | Resolve (a : A)
  | Reject (r : reason).
Arguments Resolve {A} a.
Arguments Reject {A} r.

(** A promise handed back by a client method: how it settles, and when
    (relative to the other requests in flight; only [Promise.all] looks at
    the time). *)
Record promise (A : Type) := {
  latency : nat;
  fate : settled A
}.
Arguments latency {A} p.
Arguments fate {A} p.

(** The methods of the client object that [task] uses.  [R] is the state of
    the remote end; every method call may change it. *)
Record Client (R : Type) := {
  getServices : R -> promise (list Service) * R;
  cloneVersion : Z -> R -> promise CloneResponse * R;
  getVcl : Z -> R -> promise (list Vcl) * R;
  deleteVcl : Z -> string -> R -> promise unit * R;
  updateVcl : Z -> Vcl -> R -> promise unit * R;
  setVclAsMain : Z -> string -> R -> promise unit * R;
  validateVersion : Z -> R -> promise ValidationResponse * R;
  activateVersion : Z -> R -> promise unit * R
}.
Arguments getServices {R} c.
Arguments cloneVersion {R} c.
Arguments getVcl {R} c.
Arguments deleteVcl {R} c.
Arguments updateVcl {R} c.
Arguments setVclAsMain {R} c.
Arguments validateVersion {R} c.
Arguments activateVersion {R} c.

(** What [task] takes from its surroundings.  [fastly] is the factory
    [require('fastly')], applied to the API key and the encoded service id;
    [loadVcl] is [lib/loadVcl] (it reads the folder and substitutes
    environment variables); [dotenv_load] is [require('dotenv').load()]. *)
Record Collaborators (R : Type) := {
  fastly : string -> string -> Client R;
  encodeURIComponent : string -> string;
  loadVcl : string -> list string -> gmap string string -> settled (list Vcl);
  dotenv_load : gmap string string -> gmap string string
}.
Arguments fastly {R} c.
Arguments encodeURIComponent {R} c.
Arguments loadVcl {R} c.
Arguments dotenv_load {R} c.

(** One invocation of a client method. *)
Inductive call :=
  | GetServices
  | CloneVersion (v : Z)
  | GetVcl (v : Z)
  | DeleteVcl (v : Z) (name : string)
  | UpdateVcl (v : Z) (name content : string)
  | SetVclAsMain (v : Z) (name : string)
  | ValidateVersion (v : Z)
  | ActivateVersion (v : Z).

(** What is handed to the logger. *)
Inductive logged :=
  | Text (s : string)
  | StackOf (e : thrown)          (* [err.stack] *)
  | ValidationOf (r : reason).    (* [err.validation] *)

Inductive logentry :=
  | Verbose (s : string)
  | Info (s : string)
  | Error (v : logged)
  | Success (s : string)
  | Art (a b : string).

(** ** Options *)

(** The [opts] argument; [None] is a key that is not set. *)
Record Opts := {
  main : option string;
  env : option bool;
  service : option string;
  vars : option (list string);
  verbose : option bool
}.

(** [options], after [Object.assign] with the defaults. *)
Record Options := {
  options_main : string;
  options_env : bool;
  options_service : option string;   (* [None] is the default [null] *)
  options_vars : list string;
  options_verbose : bool
}.

Definition assign_defaults (opts : Opts) : Options := {|
  options_main := default "main.vcl" (main opts);
  options_env := default false (env opts);
  options_service := service opts;
  options_vars := default [] (vars opts);
  options_verbose := default false (verbose opts)
|}.

(** Truthiness of a string-or-undefined value. *)
Definition truthy (v : option string) : bool :=
  match v with
  | Some s => negb (String.eqb s "")
  | None => false
  end.

(** What a read of [process.env] can give besides undefined: the string of
    a variable, or an object or function, kept by the text it converts to. *)
Inductive js_value :=
  | JString (s : string)
  | JObject (text : string).

(** The string a value converts to: where it is URI-encoded and where it is
    stored in [process.env]. *)
Definition to_text (v : js_value) : string :=
  match v with
  | JString s => s
  | JObject text => text
  end.

(** [id === v] for a string [id]: an object is never equal to a string. *)
Definition strict_equal (id : string) (v : js_value) : bool :=
  match v with
  | JString s => String.eqb id s
  | JObject _ => false
  end.

(** Truthiness of such a value or undefined: objects are truthy. *)
Definition truthy_value (v : option js_value) : bool :=
  match v with
  | Some (JString s) => negb (String.eqb s "")
  | Some (JObject _) => true
  | None => false
  end.

(** [a || b] on such values. *)
Definition js_or (a b : option js_value) : option js_value :=
  if truthy_value a then a else b.

(** The methods every object inherits from [Object.prototype] under their
    own name. *)
Definition Object_prototype_methods : list string :=
  [ "__defineGetter__"; "__defineSetter__"; "hasOwnProperty";
    "__lookupGetter__"; "__lookupSetter__"; "isPrototypeOf";
    "propertyIsEnumerable"; "toString"; "valueOf"; "toLocaleString" ].

(** The text of a built-in function. *)
Definition native_function (name : string) : string :=
  "function " +:+ name +:+ "() { [native code] }".

(** A property read that no variable answers goes on to [Object.prototype]:
    [constructor] is the function [Object], [__proto__] the prototype
    itself, and the methods are functions. *)
Definition inherited (k : string) : option js_value :=
  if String.eqb k "constructor" then Some (JObject (native_function "Object"))
  else if String.eqb k "__proto__" then Some (JObject "[object Object]")
  else if bool_decide (k ∈ Object_prototype_methods)
       then Some (JObject (native_function k))
       else None.

(** [process.env[k]]: an undefined key is coerced to the string
    ["undefined"]; a variable that is set answers with its string, also when
    it is empty; otherwise the read is answered by [Object.prototype]. *)
Definition env_index (penv : gmap string string) (k : option string)
    : option js_value :=
  match penv !! default "undefined" k with
  | Some v => Some (JString v)
  | None => inherited (default "undefined" k)
  end.

(** Line 42: [process.env[opts.service] || opts.service]. *)
Definition resolveServiceId (penv : gmap string string) (opts : Opts)
    : option js_value :=
  js_or (env_index penv (service opts)) (JString <$> service opts).

(** ** [Promise.all] *)

(** The earliest rejection among the promises (the first in the list among
    equally early ones). *)
Fixpoint first_rejection {A} (ps : list (promise A)) : option (nat * reason) :=
  match ps with
  | [] => None
  | p :: ps' =>
      match fate p, first_rejection ps' with
      | Reject r, Some (t', r') =>
          if (t' <? latency p)%nat then Some (t', r') else Some (latency p, r)
      | Reject r, None => Some (latency p, r)
      | Resolve _, e => e
      end
  end.

Fixpoint resolved_values {A} (ps : list (promise A)) : list A :=
  match ps with
  | [] => []
  | p :: ps' =>
      match fate p with
      | Resolve a => a :: resolved_values ps'
      | Reject _ => resolved_values ps'
      end
  end.

(** [Promise.all(ps)]: rejected with the reason of the first promise to
    reject, resolved with all the values when none rejects. *)
Definition promise_all {A} (ps : list (promise A)) : settled (list A) :=
  match first_rejection ps with
  | Some (_, r) => Reject r
  | None => Resolve (resolved_values ps)
  end.

(** ** The monad of the generator body *)

(** The state a run works on.  [calls] is the list of client methods invoked
    so far, oldest first; [logs] is the list of logger calls, oldest first
    (every call is recorded, whether or not the logger prints it). *)
Record State (R : Type) := {
  remote : R;
  process_env : gmap string string;
  calls : list call;
  logs : list logentry
}.
Arguments remote {R} s.
Arguments process_env {R} s.
Arguments calls {R} s.
Arguments logs {R} s.

Inductive completion (A : Type) :=
  | Normal (a : A)
  | Throw (e : thrown).
Arguments Normal {A} a.
Arguments Throw {A} e.

(** How the promise returned by [task] ends. *)
Inductive outcome :=
  | Fulfilled                  (* the generator ran to its end *)
  | Exited (msg : string)      (* the handler reached [exit(msg)] *)
  | Rejected (e : thrown).     (* the handler itself threw *)

Section Deploy.

Context {R : Type}.

Definition M (A : Type) : Type := State R -> completion A * State R.

Definition ret {A} (a : A) : M A := fun s => (Normal a, s).

Definition throw {A} (e : thrown) : M A := fun s => (Throw e, s).

Definition bind {A B} (m : M A) (k : A -> M B) : M B := fun s =>
  match m s with
  | (Normal a, s') => k a s'
  | (Throw e, s') => (Throw e, s')
  end.

Notation "x <- m ;; k" := (bind m (fun x => k))
  (at level 100, m at next level, right associativity).
Notation "m ;;; k" := (bind m (fun _ => k))
  (at level 100, right associativity).

Definition log (l : logentry) : M unit := fun s =>
  (Normal tt,
   {| remote := remote s; process_env := process_env s;
      calls := calls s; logs := logs s ++ [l] |}).

Definition get_env : M (gmap string string) := fun s =>
  (Normal (process_env s), s).

Definition set_env (k v : string) : M unit := fun s =>
  (Normal tt,
   {| remote := remote s; process_env := <[k := v]> (process_env s);
      calls := calls s; logs := logs s |}).

(** Invoking a client method: the request is sent (the remote state moves)
    and a promise comes back; nothing is thrown here. *)
Definition issue {A} (c : call) (op : R -> promise A * R) : M (promise A) := fun s =>
  let (p, r') := op (remote s) in
  (Normal p,
   {| remote := r'; process_env := process_env s;
      calls := calls s ++ [c]; logs := logs s |}).

(** [yield p] under [co]: the value of a resolved promise, or its rejection
    reason thrown into the generator. *)
Definition yield {A} (p : settled A) : M A :=
  match p with
  | Resolve a => ret a
  | Reject r => throw (Raised r)
  end.

(** A synchronous call of a collaborator that may throw. *)
Definition call_sync {A} (p : settled A) : M A := yield p.

(** [xs.map(f)] where [f] has effects. *)
Fixpoint map_effect {A B} (f : A -> M B) (xs : list A) : M (list B) :=
  match xs with
  | [] => ret []
  | x :: xs' => b <- f x ;; bs <- map_effect f xs' ;; ret (b :: bs)
  end.

(** The double quote character, for the template strings that print one. *)
Definition dquote : string :=
  String (Ascii.Ascii false true false false false true false false) EmptyString.

Variable W : Collaborators R.

(** Lines 33-46: the checks on the options and the environment. The result
    is the API key and the service id.  ([FASTLY_APIKEY] is no name of
    [Object.prototype]: its read is a plain lookup of the variable.) *)
Definition configure (opts : Opts) : M (string * js_value) :=
  let options := assign_defaults opts in
  if negb (truthy (options_service options)) then
    throw (NewError "the service parameter is required set to the service id of a environment variable name")
  else
    penv <- get_env ;;
    if negb (truthy (penv !! "FASTLY_APIKEY")) then
      throw (NewError "FASTLY_APIKEY not found")
    else
      let fastlyApiKey := default "" (penv !! "FASTLY_APIKEY") in
      let serviceId := resolveServiceId penv opts in
      if negb (truthy_value serviceId) then
        throw (NewError "No service ")
      else
        ret (fastlyApiKey, default (JString "") serviceId).

(** Lines 50-55: export SERVICEID when asked for, then load the files.
    The assignment to [process.env] stores the value as a string. *)
Definition load (folder : string) (options : Options) (serviceId : js_value)
    : M (list Vcl) :=
  (if bool_decide ("SERVICEID" ∈ options_vars options)
   then set_env "SERVICEID" (to_text serviceId) else ret tt) ;;;
  penv <- get_env ;;
  call_sync (loadVcl W folder (options_vars options) penv).

(** Lines 58-59: find the service and read its active version. *)
Definition current_service (client : Client R) (serviceId : js_value) : M Service :=
  p <- issue GetServices (getServices client) ;;
  services <- yield (fate p) ;;
  match List.find (fun s => strict_equal (service_id s) serviceId) services with
  | Some service => ret service
  | None => throw (TypeError "version")
  end.

(** Lines 62-66: clone the active version. *)
Definition clone (client : Client R) (service : Service) : M Z :=
  let activeVersion := service_version service in
  log (Verbose ("Cloning active version " +:+ pretty activeVersion
                +:+ " of " +:+ service_name service)) ;;;
  p <- issue (CloneVersion activeVersion) (cloneVersion client activeVersion) ;;
  cloneResponse <- yield (fate p) ;;
  log (Verbose ("Successfully cloned version " +:+ pretty (number cloneResponse))) ;;;
  let newVersion := number cloneResponse in
  log (Info "Cloned new version") ;;;
  ret newVersion.

(** Lines 69-74: delete the files inherited from the cloned version. *)
Definition delete_old (client : Client R) (newVersion : Z) : M unit :=
  p <- issue (GetVcl newVersion) (getVcl client newVersion) ;;
  oldVcl <- yield (fate p) ;;
  ps <- map_effect (fun vcl =>
          log (Verbose ("Deleting " +:+ dquote +:+ vcl_name vcl +:+ dquote
                        +:+ " for version " +:+ pretty newVersion)) ;;;
          issue (DeleteVcl newVersion (vcl_name vcl))
                (deleteVcl client newVersion (vcl_name vcl))) oldVcl ;;
  yield (promise_all ps) ;;;
  log (Info "Deleted old vcl").

(** Lines 77-84: upload the new files. *)
Definition upload_new (client : Client R) (newVersion : Z) (vcls : list Vcl) : M unit :=
  log (Info "Uploading new VCL") ;;;
  ps <- map_effect (fun vcl =>
          log (Verbose ("Uploading new VCL " +:+ vcl_name vcl
                        +:+ " with version " +:+ pretty newVersion)) ;;;
          issue (UpdateVcl newVersion (vcl_name vcl) (vcl_content vcl))
                (updateVcl client newVersion
                   {| vcl_name := vcl_name vcl; vcl_content := vcl_content vcl |})) vcls ;;
  yield (promise_all ps) ;;;
  ret tt.

(** Lines 87-88: set the main file. *)
Definition set_main (client : Client R) (newVersion : Z) (options : Options) : M unit :=
  log (Info ("Set " +:+ dquote +:+ options_main options +:+ dquote
             +:+ " as the main entry point")) ;;;
  p <- issue (SetVclAsMain newVersion (options_main options))
             (setVclAsMain client newVersion (options_main options)) ;;
  yield (fate p).

(** Lines 91-98: validate. The [catch] callback builds the tagged error and
    then throws [err], the reason it was called with. *)
Definition validate (client : Client R) (newVersion : Z) : M ValidationResponse :=
  log (Verbose ("Validate version " +:+ pretty newVersion)) ;;;
  p <- issue (ValidateVersion newVersion) (validateVersion client newVersion) ;;
  match fate p with
  | Resolve validationResponse => ret validationResponse
  | Reject err =>
      let error := ValidationError err in
      throw (Raised err)
  end.

(** Lines 33-66: from the checks to the cloned version.  The result is what
    the rest of the body uses: the client, the files to upload and the number
    of the new version. *)
Definition open_version (folder : string) (opts : Opts) : M (Client R * list Vcl * Z) :=
  let options := assign_defaults opts in
  conf <- configure opts ;;
  let fastlyApiKey := fst conf in
  let serviceId := snd conf in
  let client := fastly W fastlyApiKey (encodeURIComponent W (to_text serviceId)) in
  vcls <- load folder options serviceId ;;
  service <- current_service client serviceId ;;
  newVersion <- clone client service ;;
  ret (client, vcls, newVersion).

(** Lines 33-98: everything up to and including validation. *)
Definition prepare (folder : string) (opts : Opts) : M (Client R * Z * ValidationResponse) :=
  opened <- open_version folder opts ;;
  let '(client, vcls, newVersion) := opened in
  delete_old client newVersion ;;;
  upload_new client newVersion vcls ;;;
  set_main client newVersion (assign_defaults opts) ;;;
  validationResponse <- validate client newVersion ;;
  ret (client, newVersion, validationResponse).

(** Lines 99-107: activate when the status is ok. *)
Definition conclude (client : Client R) (newVersion : Z)
    (validationResponse : ValidationResponse) : M unit :=
  if String.eqb (status validationResponse) "ok" then
    log (Info ("Version  " +:+ pretty newVersion +:+ " looks ok")) ;;;
    p <- issue (ActivateVersion newVersion) (activateVersion client newVersion) ;;
    yield (fate p) ;;;
    log (Success "Your VCL has been deployed.  Have a nice cup of tea and relax") ;;;
    log (Art "tea" "success")
  else
    throw (NewError "VCL failed validation for some unknown reason").

(** Lines 32-109: the generator run by [co]. *)
Definition deploy (folder : string) (opts : Opts) : M unit :=
  prepared <- prepare folder opts ;;
  let '(client, newVersion, validationResponse) := prepared in
  conclude client newVersion validationResponse.

(** Modelled from the spec: [lib/exit] is not part of the sources; the spec
    gives its behaviour as non-zero termination with a printed diagnostic.
    The call is the last thing the run does, so it is recorded as the
    outcome. *)
Definition exit (msg : string) : outcome := Exited msg.

(** Lines 110-118: the handler given to [.catch]. Reading [err.type] off
    [null] or [undefined] raises; only the tagged error built at line 94
    has the private symbol as its [type]. *)
Definition on_error (err : thrown) (s : State R) : outcome * State R :=
  match err with
  | Raised Nullish => (Rejected (TypeError "type"), s)
  | ValidationError validation =>
      let s1 := snd (log (Error (Text "VCL Validation Error")) s) in
      let s2 := snd (log (Error (ValidationOf validation)) s1) in
      (exit "Bailing...", s2)
  | _ =>
      let s1 := snd (log (Error (StackOf err)) s) in
      (exit "Bailing...", s1)
  end.

(** Lines 18-30: what [task] does before it starts the generator. *)
Definition prelude (opts : Opts) (s : State R) : State R :=
  if options_env (assign_defaults opts)
  then {| remote := remote s; process_env := dotenv_load W (process_env s);
          calls := calls s; logs := logs s |}
  else s.

(** Lines 17-119: [task(folder, opts)]. *)
Definition task (folder : string) (opts : Opts) (s : State R) : outcome * State R :=
  match deploy folder opts (prelude opts s) with
  | (Normal _, s') => (Fulfilled, s')
  | (Throw err, s') => on_error err s'
  end.

End Deploy.

Arguments M : clear implicits.

(** ** The remote end seen on its own *)

(** The requests of one fan-out, in the order [xs.map] sends them: the
    promises that come back and the remote state after the last request.
    The remote end takes the requests in the order they are sent; whether
    and when each of them is answered is in the promise. *)
Fixpoint requests {R A B} (op : A -> R -> promise B * R) (xs : list A) (r : R)
    : list (promise B) * R :=
  match xs with
  | [] => ([], r)
  | x :: xs' =>
      let (p, r1) := op x r in
      let (ps, r2) := requests op xs' r1 in
      (p :: ps, r2)
  end.

(** The state after some more client calls and logger calls. *)
Definition advance {R} (s : State R) (r : R) (cs : list call) (ls : list logentry)
    : State R :=
  {| remote := r; process_env := process_env s;
     calls := calls s ++ cs; logs := logs s ++ ls |}.

(** The state with another environment. *)
Definition with_env {R} (s : State R) (penv : gmap string string) : State R :=
  {| remote := remote s; process_env := penv; calls := calls s; logs := logs s |}.

(** The environment [loadVcl] runs in: lines 51-53 have exported SERVICEID
    when it is among the variables to substitute. *)
Definition load_env (options : Options) (serviceId : string)
    (penv : gmap string string) : gmap string string :=
  if bool_decide ("SERVICEID" ∈ options_vars options)
  then <["SERVICEID" := serviceId]> penv else penv.

(** The calls that only read the remote state. *)
Definition is_query (c : call) : bool :=
  match c with
  | GetServices | GetVcl _ => true
  | _ => false
  end.

Definition is_activation (c : call) : bool :=
  match c with
  | ActivateVersion _ => true
  | _ => false
  end.

(** Between two states of a run: calls were added, none of them an
    activation, and the active-version pointer read by [active] is the
    same. *)
Definition quiet {R} (active : R -> Z) (s s' : State R) : Prop :=
  (exists cs, calls s' = (calls s ++ cs)%list /\ forallb (fun c => negb (is_activation c)) cs = true)
  /\ active (remote s') = active (remote s).

(** The steps through validation do not lead to an activation: one of them
    throws, or validation resolves with a status other than [ok]. *)
Definition stops_before_activation {R}
    (c : completion (Client R * Z * ValidationResponse)) : Prop :=
  match c with
  | Throw _ => True
  | Normal (_, _, validationResponse) =>
      String.eqb (status validationResponse) "ok" = false
  end.

(** The error that carries the private [VCL_VALIDATION_ERROR] symbol. *)
Definition is_tagged (e : thrown) : bool :=
  match e with
  | ValidationError _ => true
  | _ => false
  end.

(** An error object that the task built itself with [new Error(...)], as
    opposed to one raised by the runtime or handed over by a collaborator. *)
Definition built_by_task (e : thrown) : bool :=
  match e with
  | NewError _ | ValidationError _ => true
  | TypeError _ | Raised _ => false
  end.

(** The three messages of the checks at lines 33-46. *)
Definition configuration_error (e : thrown) : Prop :=
  e = NewError "the service parameter is required set to the service id of a environment variable name"
  \/ e = NewError "FASTLY_APIKEY not found"
  \/ e = NewError "No service ".

(** Modelled from the spec: the remote service is not part of the sources.
    Section 5 of the spec says that the active-version pointer of the service
    is written by activation only; [active] reads that pointer off the remote
    state. *)
Record pointer_written_by_activation_only {R} (active : R -> Z) (c : Client R)
    : Prop := {
  getServices_keeps : forall r, active (snd (getServices c r)) = active r;
  cloneVersion_keeps : forall v r, active (snd (cloneVersion c v r)) = active r;
  getVcl_keeps : forall v r, active (snd (getVcl c v r)) = active r;
  deleteVcl_keeps : forall v n r, active (snd (deleteVcl c v n r)) = active r;
  updateVcl_keeps : forall v f r, active (snd (updateVcl c v f r)) = active r;
  setVclAsMain_keeps : forall v n r, active (snd (setVclAsMain c v n r)) = active r;
  validateVersion_keeps : forall v r, active (snd (validateVersion c v r)) = active r
}.

(** Modelled from the spec: sections 3 and 6 give the meaning of the file
    operations on a version.  [files r v] is the file set of version [v] in
    the remote state [r] (name to content), [active r] the active version.
    Listing returns every file of the version; a deletion that succeeds
    removes the file; an upload that succeeds stores it under its name;
    setting the entry point and validating leave the files alone; an
    activation that succeeds makes the version the active one. *)
Record file_store {R} (files : R -> Z -> gmap string string) (active : R -> Z)
    (c : Client R) : Prop := {
  getVcl_lists : forall v r l,
    fate (fst (getVcl c v r)) = Resolve l ->
    files (snd (getVcl c v r)) v = files r v
    /\ forall n, is_Some (files r v !! n) -> In n (map vcl_name l);
  deleteVcl_removes : forall v n r,
    fate (fst (deleteVcl c v n r)) = Resolve tt ->
    files (snd (deleteVcl c v n r)) v = delete n (files r v);
  updateVcl_stores : forall v f r,
    fate (fst (updateVcl c v f r)) = Resolve tt ->
    files (snd (updateVcl c v f r)) v = <[vcl_name f := vcl_content f]> (files r v);
  setVclAsMain_files : forall v n r,
    files (snd (setVclAsMain c v n r)) v = files r v;
  validateVersion_files : forall v r,
    files (snd (validateVersion c v r)) v = files r v;
  activateVersion_activates : forall v r,
    fate (fst (activateVersion c v r)) = Resolve tt ->
    files (snd (activateVersion c v r)) v = files r v
    /\ active (snd (activateVersion c v r)) = v
}.

(** ** A simulated service

    A small remote end to run the task against: one service with its
    versions, a script that says which requests fail, and a fixed validation
    verdict. *)

Record fault := {
  delay : nat;
  failure : option reason
}.

Record Sim := {
  sim_services : list Service;               (* the answer of getServices *)
  sim_active : Z;                            (* the active version *)
  sim_files : gmap Z (gmap string string);   (* the files of each version *)
  sim_main : gmap Z string;                  (* the entry point of each version *)
  sim_next : Z;                              (* the number of the next clone *)
  sim_verdict : ValidationResponse;          (* the answer of validation *)
  sim_script : list fault                    (* one entry per request, in order *)
}.

Definition sim_with_script (st : Sim) (script : list fault) : Sim :=
  {| sim_services := sim_services st; sim_active := sim_active st;
     sim_files := sim_files st; sim_main := sim_main st;
     sim_next := sim_next st; sim_verdict := sim_verdict st;
     sim_script := script |}.

Definition sim_with_files (st : Sim) (fs : gmap Z (gmap string string)) : Sim :=
  {| sim_services := sim_services st; sim_active := sim_active st;
     sim_files := fs; sim_main := sim_main st;
     sim_next := sim_next st; sim_verdict := sim_verdict st;
     sim_script := sim_script st |}.

Definition sim_files_of (st : Sim) (v : Z) : gmap string string :=
  default ∅ (sim_files st !! v).

(** A request: the next entry of the script decides whether it fails (then
    nothing happens remotely); an exhausted script lets everything pass. *)
Definition sim_request {A} (act : Sim -> A * Sim) (st : Sim) : promise A * Sim :=
  match sim_script st with
  | [] =>
      let (a, st') := act st in
      ({| latency := 0; fate := Resolve a |}, st')
  | f :: script =>
      let st0 := sim_with_script st script in
      match failure f with
      | Some r => ({| latency := delay f; fate := Reject r |}, st0)
      | None =>
          let (a, st') := act st0 in
          ({| latency := delay f; fate := Resolve a |}, st')
      end
  end.

Definition sim_clone (v : Z) (st : Sim) : CloneResponse * Sim :=
  ({| number := sim_next st |},
   {| sim_services := sim_services st; sim_active := sim_active st;
      sim_files := <[sim_next st := sim_files_of st v]> (sim_files st);
      sim_main := sim_main st;
      sim_next := sim_next st + 1; sim_verdict := sim_verdict st;
      sim_script := sim_script st |}).

Definition sim_list (v : Z) (st : Sim) : list Vcl * Sim :=
  (map (fun nc => {| vcl_name := fst nc; vcl_content := snd nc |})
       (map_to_list (sim_files_of st v)), st).

Definition sim_delete (v : Z) (n : string) (st : Sim) : unit * Sim :=
  (tt, sim_with_files st (<[v := delete n (sim_files_of st v)]> (sim_files st))).

Definition sim_update (v : Z) (f : Vcl) (st : Sim) : unit * Sim :=
  (tt, sim_with_files st
         (<[v := <[vcl_name f := vcl_content f]> (sim_files_of st v)]> (sim_files st))).

Definition sim_set_main (v : Z) (n : string) (st : Sim) : unit * Sim :=
  (tt,
   {| sim_services := sim_services st; sim_active := sim_active st;
      sim_files := sim_files st; sim_main := <[v := n]> (sim_main st);
      sim_next := sim_next st; sim_verdict := sim_verdict st;
      sim_script := sim_script st |}).

Definition sim_activate (v : Z) (st : Sim) : unit * Sim :=
  (tt,
   {| sim_services := sim_services st; sim_active := v;
      sim_files := sim_files st; sim_main := sim_main st;
      sim_next := sim_next st; sim_verdict := sim_verdict st;
      sim_script := sim_script st |}).

Definition sim_client : Client Sim := {|
  getServices := sim_request (fun st => (sim_services st, st));
  cloneVersion := fun v => sim_request (sim_clone v);
  getVcl := fun v => sim_request (sim_list v);
  deleteVcl := fun v n => sim_request (sim_delete v n);
  updateVcl := fun v f => sim_request (sim_update v f);
  setVclAsMain := fun v n => sim_request (sim_set_main v n);
  validateVersion := fun v => sim_request (fun st => (sim_verdict st, st));
  activateVersion := fun v => sim_request (sim_activate v)
|}.

(** Collaborators around the simulated service: a folder that holds [vcls],
    no [.env] file, service ids that need no escaping. *)
Definition sim_world (vcls : settled (list Vcl)) : Collaborators Sim := {|
  fastly := fun _ _ => sim_client;
  encodeURIComponent := fun s => s;
  loadVcl := fun _ _ _ => vcls;
  dotenv_load := fun penv => penv
|}.

(** *** The scenarios of the spec *)

Definition scenario_files : list Vcl :=
  [ {| vcl_name := "main.vcl"; vcl_content := "sub vcl_recv { }" |};
    {| vcl_name := "edge.vcl"; vcl_content := "sub vcl_fetch { }" |};
    {| vcl_name := "backends.vcl"; vcl_content := "backend origin { }" |} ].

Definition scenario_world : Collaborators Sim := sim_world (Resolve scenario_files).

Definition scenario_opts : Opts :=
  {| main := None; env := None; service := Some "svc1";
     vars := None; verbose := None |}.

Definition scenario_service (script : list fault) (verdict : ValidationResponse) : Sim :=
  {| sim_services :=
       [ {| service_id := "svc0"; service_name := "other"; service_version := 2 |};
         {| service_id := "svc1"; service_name := "www"; service_version := 5 |} ];
     sim_active := 5;
     sim_files := {[ 5 := {[ "main.vcl" := "old main"; "legacy.vcl" := "old legacy" ]} ]};
     sim_main := {[ 5 := "main.vcl" ]};
     sim_next := 6;
     sim_verdict := verdict;
     sim_script := script |}.

Definition verdict_ok : ValidationResponse :=
  {| status := "ok"; diagnostics := [] |}.

Definition verdict_rejected (d : list string) : ValidationResponse :=
  {| status := "error"; diagnostics := d |}.

Definition start (penv : gmap string string) (st : Sim) : State Sim :=
  {| remote := st; process_env := penv; calls := []; logs := [] |}.

Definition scenario_env : gmap string string := {[ "FASTLY_APIKEY" := "secret" ]}.

Definition pass : fault := {| delay := 0; failure := None |}.

(** A script that fails the request number [n] (counted from 0) and no
    other. *)
Definition fail_request (n : nat) (r : reason) : list fault :=
  replicate n pass ++ [ {| delay := 0; failure := Some r |} ].

Definition scenario_A : State Sim :=
  start scenario_env (scenario_service [] verdict_ok).

(** Scenario B: validation answers with an error status and diagnostics. *)
Definition scenario_B (d : list string) : State Sim :=
  start scenario_env (scenario_service [] (verdict_rejected d)).

(** The requests of the scenario are numbered in the order they are sent:
    0 getServices, 1 cloneVersion, 2 getVcl, 3 and 4 the two deletions,
    5 to 7 the three uploads, 8 setVclAsMain, 9 validateVersion,
    10 activateVersion.  [scenario_failing n r] is scenario A with request
    [n] rejected with [r]. *)
Definition scenario_failing (n : nat) (r : reason) : State Sim :=
  start scenario_env (scenario_service (fail_request n r) verdict_ok).

(** Options that name a service the remote end does not list. *)
Definition unknown_service_opts : Opts :=
  {| main := None; env := None; service := Some "svc9";
     vars := None; verbose := None |}.

(** Options without a service. *)
Definition no_service_opts : Opts :=
  {| main := None; env := None; service := None;
     vars := None; verbose := None |}.



(** ** The rest of [deploy.js] *)

(** [val.split(sep)] for a separator of one character: the fields between
    the separators, in order; a string without separator is one field. *)
Fixpoint split_at (sep : Ascii.ascii) (val : string) : list string :=
  match val with
  | EmptyString => [EmptyString]
  | String c rest =>
      if Ascii.eqb c sep then EmptyString :: split_at sep rest
      else
        match split_at sep rest with
        | field :: fields => String c field :: fields
        | [] => [String c EmptyString]
        end
  end.

(** The comma, as a character. *)
Definition comma : Ascii.ascii :=
  Ascii.Ascii false false true true false true false false.

(** Lines 13-15: [list(val)], the coercion of the [--vars] option.  (The
    source calls it [list].) *)
Definition list_values (val : string) : list string := split_at comma val.

(** Whether a string holds the character. *)
Fixpoint holds (c : Ascii.ascii) (val : string) : bool :=
  match val with
  | EmptyString => false
  | String c' rest => Ascii.eqb c' c || holds c rest
  end.

(** How many times it holds it. *)
Fixpoint occurrences (c : Ascii.ascii) (val : string) : nat :=
  match val with
  | EmptyString => 0%nat
  | String c' rest => ((if Ascii.eqb c' c then 1 else 0) + occurrences c rest)%nat
  end.

(** What [exit] is called with: a message, or the error a [.catch(exit)]
    hands over. *)
Inductive exit_argument :=
  | Message (msg : string)
  | Caught (e : thrown).

(** How the command ends. *)
Inductive command_end :=
  | Completed
  | ProcessExit (arg : exit_argument).

(** Lines 131-137: the action of the [deploy-vcl] command.  Modelled from
    the spec: [lib/exit] ends the process, here as in the handler of
    [task]; a run that reached [exit] inside [task] never comes back to
    [.catch(exit)]. *)
Definition action {R} (W : Collaborators R) (folder : option string) (options : Opts)
    (s : State R) : command_end * State R :=
  if truthy folder then
    match task W (default "" folder) options s with
    | (Fulfilled, s') => (Completed, s')
    | (Exited msg, s') => (ProcessExit (Message msg), s')
    | (Rejected e, s') => (ProcessExit (Caught e), s')
    end
  else
    (ProcessExit (Message "Please provide a folder where the .vcl is located"), s).

(** The lines of the logger that report progress, as opposed to the ones
    that report how the run ended. *)
Definition routine (l : logentry) : bool :=
  match l with
  | Verbose _ | Info _ => true
  | Error _ | Success _ | Art _ _ => false
  end.

(** Between two states of a run: only progress lines were logged. *)
Definition chatty {R} (s s' : State R) : Prop :=
  exists ls, logs s' = (logs s ++ ls)%list /\ forallb routine ls = true.



(** The errors the generator throws by itself. *)
Definition own_error (e : thrown) : Prop :=
  e = NewError "the service parameter is required set to the service id of a environment variable name"
  \/ e = NewError "FASTLY_APIKEY not found"
  \/ e = TypeError "version"
  \/ e = NewError "VCL failed validation for some unknown reason".

(** Scenario A with a list of services in which the id occurs twice. *)
Definition twin_services : list Service :=
  [ {| service_id := "svc0"; service_name := "other"; service_version := 2 |};
    {| service_id := "svc1"; service_name := "www"; service_version := 5 |};
    {| service_id := "svc1"; service_name := "www-old"; service_version := 3 |} ].

(** A script for scenario A in which both deletions are rejected, the
    second one sooner than the first. *)
Definition race_script : list fault :=
  [ pass; pass; pass;
    {| delay := 7; failure := Some (Foreign "slow failure") |};
    {| delay := 2; failure := Some (Foreign "quick failure") |} ].

(** Scenario A against that list of services. *)
Definition scenario_twins : State Sim :=
  start scenario_env
    {| sim_services := twin_services;
       sim_active := 5;
       sim_files := {[ 5 := {[ "main.vcl" := "old main"; "legacy.vcl" := "old legacy" ]} ]};
       sim_main := {[ 5 := "main.vcl" ]};
       sim_next := 6;
       sim_verdict := verdict_ok;
       sim_script := [] |}.

(** Scenario A under that script. *)
Definition scenario_race : State Sim :=
  start scenario_env (scenario_service race_script verdict_ok).

(** A promise that is rejected no later than any other rejected promise of
    the list. *)
Definition earliest_rejection {A} (p : promise A) (ps : list (promise A)) : Prop :=
  forall q r, In q ps -> fate q = Reject r -> (latency p <= latency q)%nat.


(** * Properties *)

(** ** [Promise.all] *)

Lemma first_rejection_in {A} (ps : list (promise A)) t r :
  first_rejection ps = Some (t, r) ->
  exists p, In p ps /\ fate p = Reject r /\ latency p = t.
Proof.
  revert t r. induction ps as [|p ps IH]; intros t r; simpl; [discriminate|].
  destruct (fate p) as [a|r0] eqn:Hp.
  - intros H. destruct (IH _ _ H) as (q & Hq & Hf & Hl). eauto.
  - destruct (first_rejection ps) as [[t' r']|] eqn:Hrest.
    + destruct (t' <? latency p)%nat; intros [= <- <-].
      * destruct (IH _ _ eq_refl) as (q & Hq & Hf & Hl). eauto.
      * exists p. auto.
    + intros [= <- <-]. exists p. auto.
Qed.

Lemma first_rejection_none {A} (ps : list (promise A)) :
  first_rejection ps = None <-> forall p, In p ps -> exists a, fate p = Resolve a.
Proof.
  induction ps as [|p ps IH]; simpl.
  - split; [intros _ q []|reflexivity].
  - destruct (fate p) as [a|r0] eqn:Hp.
    + rewrite IH. split.
      * intros H q [<-|Hq]; eauto.
      * intros H q Hq. apply H. auto.
    + split.
      * destruct (first_rejection ps) as [[t' r']|];
          [destruct (t' <? latency p)%nat|]; discriminate.
      * intros H. destruct (H p (or_introl eq_refl)) as [a Ha]. congruence.
Qed.

(** A rejected [Promise.all] carries the reason of one of its promises. *)
Lemma promise_all_reject {A} (ps : list (promise A)) r :
  promise_all ps = Reject r -> exists p, In p ps /\ fate p = Reject r.
Proof.
  unfold promise_all. destruct (first_rejection ps) as [[t r']|] eqn:H; [|discriminate].
  intros [= <-]. destruct (first_rejection_in _ _ _ H) as (p & ? & ? & ?). eauto.
Qed.

(** [Promise.all] resolves exactly when every promise does. *)
Lemma promise_all_resolve {A} (ps : list (promise A)) :
  (exists vs, promise_all ps = Resolve vs)
  <-> forall p, In p ps -> exists a, fate p = Resolve a.
Proof.
  rewrite <- first_rejection_none. unfold promise_all.
  destruct (first_rejection ps) as [[t r']|]; split; eauto.
  - intros [vs H]. discriminate.
  - discriminate.
Qed.

(** ** The steps of the generator *)

Section Steps.

Context {R : Type} (W : Collaborators R).

Lemma advance_same (s : State R) : advance s (remote s) [] [] = s.
Proof. destruct s. unfold advance. simpl. by rewrite !app_nil_r. Qed.

Lemma advance_advance (s : State R) r1 c1 l1 r2 c2 l2 :
  advance (advance s r1 c1 l1) r2 c2 l2 = advance s r2 (c1 ++ c2) (l1 ++ l2).
Proof. unfold advance. simpl. by rewrite !app_assoc. Qed.

Lemma bind_normal_inv {A B} (m : M R A) (k : A -> M R B) s b s' :
  bind m k s = (Normal b, s') ->
  exists a s1, m s = (Normal a, s1) /\ k a s1 = (Normal b, s').
Proof.
  unfold bind. destruct (m s) as [[a|e] s1]; [eauto|discriminate].
Qed.

Lemma bind_throw_inv {A B} (m : M R A) (k : A -> M R B) s e s' :
  bind m k s = (Throw e, s') ->
  m s = (Throw e, s')
  \/ exists a s1, m s = (Normal a, s1) /\ k a s1 = (Throw e, s').
Proof.
  unfold bind. destruct (m s) as [[a|e0] s1]; [eauto|].
  intros [= <- <-]. auto.
Qed.

Lemma bind_normal {A B} (m : M R A) (k : A -> M R B) s a s1 :
  m s = (Normal a, s1) -> bind m k s = k a s1.
Proof. unfold bind. by intros ->. Qed.

Lemma bind_throw {A B} (m : M R A) (k : A -> M R B) s e s1 :
  m s = (Throw e, s1) -> bind m k s = (Throw e, s1).
Proof. unfold bind. by intros ->. Qed.

Lemma log_eq l (s : State R) : log l s = (Normal tt, advance s (remote s) [] [l]).
Proof. unfold log, advance. simpl. by rewrite app_nil_r. Qed.

Lemma issue_eq {A} c (op : R -> promise A * R) s :
  issue c op s = (Normal (fst (op (remote s))), advance s (snd (op (remote s))) [c] []).
Proof.
  unfold issue, advance. destruct (op (remote s)) as [p r']. simpl.
  by rewrite app_nil_r.
Qed.

(** The requests of a fan-out are all sent, in the order of the list,
    whatever their fate. *)
Lemma map_effect_requests {A B} (l : A -> logentry) (c : A -> call)
    (op : A -> R -> promise B * R) xs s :
  map_effect (fun x => bind (log (l x)) (fun _ => issue (c x) (op x))) xs s
  = (Normal (fst (requests op xs (remote s))),
     advance s (snd (requests op xs (remote s))) (map c xs) (map l xs)).
Proof.
  revert s. induction xs as [|x xs IH]; intros s; simpl.
  - unfold ret. by rewrite advance_same.
  - unfold bind at 1 2. rewrite log_eq. rewrite issue_eq. simpl.
    unfold bind at 1. rewrite IH. simpl.
    destruct (op x (remote s)) as [p r1]. simpl.
    destruct (requests op xs r1) as [ps r2]. simpl.
    unfold ret. rewrite !advance_advance. reflexivity.
Qed.

Lemma configure_state opts (s : State R) : snd (configure opts s) = s.
Proof.
  unfold configure, bind, get_env, throw, ret.
  repeat (match goal with |- context [if ?b then _ else _] => destruct b end; simpl);
    reflexivity.
Qed.

Lemma truthy_Some v : truthy v = true <-> exists x, v = Some x /\ x <> "".
Proof.
  destruct v as [x|]; simpl.
  - rewrite negb_true_iff, String.eqb_neq. split; [eauto|]. by intros (? & [= <-] & ?).
  - split; [discriminate|]. by intros (? & ? & ?).
Qed.

(** The checks either stop the run with one of their three messages, or
    hand over a non-empty API key and a non-empty service id. *)
Lemma configure_cases opts (s : State R) :
  (exists e, configuration_error e /\ configure opts s = (Throw e, s))
  \/ (exists key sid,
        configure opts s = (Normal (key, sid), s)
        /\ truthy (service opts) = true
        /\ process_env s !! "FASTLY_APIKEY" = Some key /\ key <> ""
        /\ resolveServiceId (process_env s) opts = Some sid
        /\ truthy_value (Some sid) = true).
Proof.
  unfold configure, bind, get_env, throw, ret, configuration_error. simpl.
  destruct (truthy (service opts)) eqn:Hs; simpl; [|eauto 6].
  destruct (truthy (process_env s !! "FASTLY_APIKEY")) eqn:Hk; simpl; [|eauto 6].
  destruct (truthy_value (resolveServiceId (process_env s) opts)) eqn:Hi; simpl;
    [|eauto 6].
  right. apply truthy_Some in Hk as (key & Hk & Hk').
  destruct (resolveServiceId (process_env s) opts) as [sid|] eqn:Hr; [|discriminate].
  exists key, sid. rewrite Hk. simpl. auto 6.
Qed.

Lemma load_eq folder options sid (s : State R) :
  load W folder options sid s
  = (match loadVcl W folder (options_vars options)
             (load_env options (to_text sid) (process_env s)) with
     | Resolve vcls => Normal vcls
     | Reject r => Throw (Raised r)
     end,
     with_env s (load_env options (to_text sid) (process_env s))).
Proof.
  unfold load, load_env, bind, set_env, get_env, call_sync, yield, ret, throw, with_env.
  destruct s as [r penv cs ls]. simpl.
  destruct (bool_decide ("SERVICEID" ∈ options_vars options)); simpl;
    destruct (loadVcl W folder (options_vars options) _); reflexivity.
Qed.

Lemma current_service_eq client sid (s : State R) :
  current_service client sid s
  = (match fate (fst (getServices client (remote s))) with
     | Resolve services =>
         match List.find (fun x => strict_equal (service_id x) sid) services with
         | Some service => Normal service
         | None => Throw (TypeError "version")
         end
     | Reject r => Throw (Raised r)
     end,
     advance s (snd (getServices client (remote s))) [GetServices] []).
Proof.
  unfold current_service. unfold bind at 1. rewrite issue_eq.
  unfold bind, yield, ret, throw.
  destruct (fate (fst (getServices client (remote s)))) as [services|r]; [|reflexivity].
  destruct (List.find _ services); reflexivity.
Qed.

Lemma clone_eq client service (s : State R) :
  exists ls,
    clone client service s
    = (match fate (fst (cloneVersion client (service_version service) (remote s))) with
       | Resolve cloneResponse => Normal (number cloneResponse)
       | Reject r => Throw (Raised r)
       end,
       advance s (snd (cloneVersion client (service_version service) (remote s)))
         [CloneVersion (service_version service)] ls).
Proof.
  unfold clone. unfold bind at 1. rewrite log_eq.
  unfold bind at 1. rewrite issue_eq. rewrite advance_advance. simpl.
  unfold bind at 1, yield.
  destruct (fate (fst (cloneVersion client (service_version service) (remote s))))
    as [cloneResponse|r].
  - unfold ret at 1. unfold bind at 1. rewrite log_eq.
    unfold bind. rewrite log_eq. unfold ret. rewrite !advance_advance. simpl. eauto.
  - unfold throw. eauto.
Qed.

Lemma delete_old_eq client newVersion (s : State R) :
  exists ls,
    delete_old client newVersion s
    = match fate (fst (getVcl client newVersion (remote s))) with
      | Reject r =>
          (Throw (Raised r),
           advance s (snd (getVcl client newVersion (remote s))) [GetVcl newVersion] ls)
      | Resolve oldVcl =>
          let q := requests (fun vcl => deleteVcl client newVersion (vcl_name vcl))
                     oldVcl (snd (getVcl client newVersion (remote s))) in
          (match promise_all (fst q) with
           | Resolve _ => Normal tt
           | Reject r => Throw (Raised r)
           end,
           advance s (snd q)
             (GetVcl newVersion :: map (fun vcl => DeleteVcl newVersion (vcl_name vcl)) oldVcl)
             ls)
      end.
Proof.
  unfold delete_old. unfold bind at 1. rewrite issue_eq.
  unfold bind at 1, yield at 1.
  destruct (fate (fst (getVcl client newVersion (remote s)))) as [oldVcl|r].
  - unfold ret at 1. unfold bind at 1. rewrite map_effect_requests. simpl.
    set (q := requests _ oldVcl _). unfold bind, yield.
    destruct (promise_all (fst q)) as [vs|r].
    + unfold ret. cbv beta iota. rewrite log_eq, !advance_advance. simpl. rewrite ?app_nil_r. eauto.
    + unfold throw. cbv beta iota. rewrite !advance_advance. simpl. rewrite ?app_nil_r. eauto.
  - unfold throw. eauto.
Qed.

Lemma upload_new_eq client newVersion vcls (s : State R) :
  exists ls,
    let q := requests (fun vcl => updateVcl client newVersion
                          {| vcl_name := vcl_name vcl; vcl_content := vcl_content vcl |})
               vcls (remote s) in
    upload_new client newVersion vcls s
    = (match promise_all (fst q) with
       | Resolve _ => Normal tt
       | Reject r => Throw (Raised r)
       end,
       advance s (snd q)
         (map (fun vcl => UpdateVcl newVersion (vcl_name vcl) (vcl_content vcl)) vcls) ls).
Proof.
  unfold upload_new. unfold bind at 1. rewrite log_eq.
  unfold bind at 1. rewrite map_effect_requests. simpl.
  set (q := requests _ vcls _). unfold bind, yield.
  destruct (promise_all (fst q)) as [vs|r].
  - unfold ret. cbv beta iota. rewrite !advance_advance. simpl. rewrite ?app_nil_r. eauto.
  - unfold throw. cbv beta iota. rewrite !advance_advance. simpl. rewrite ?app_nil_r. eauto.
Qed.

Lemma set_main_eq client newVersion options (s : State R) :
  exists ls,
    set_main client newVersion options s
    = (match fate (fst (setVclAsMain client newVersion (options_main options) (remote s))) with
       | Resolve _ => Normal tt
       | Reject r => Throw (Raised r)
       end,
       advance s (snd (setVclAsMain client newVersion (options_main options) (remote s)))
         [SetVclAsMain newVersion (options_main options)] ls).
Proof.
  unfold set_main. unfold bind at 1. rewrite log_eq.
  unfold bind at 1. rewrite issue_eq. rewrite advance_advance. simpl.
  unfold yield.
  destruct (fate (fst (setVclAsMain client newVersion (options_main options) (remote s))))
    as [[]|r]; unfold ret, throw; eauto.
Qed.

(** The tagged error built in the [catch] callback is dropped: what is
    thrown is the reason the callback received. *)
Lemma validate_eq client newVersion (s : State R) :
  exists ls,
    validate client newVersion s
    = (match fate (fst (validateVersion client newVersion (remote s))) with
       | Resolve validationResponse => Normal validationResponse
       | Reject r => Throw (Raised r)
       end,
       advance s (snd (validateVersion client newVersion (remote s)))
         [ValidateVersion newVersion] ls).
Proof.
  unfold validate. unfold bind at 1. rewrite log_eq.
  unfold bind at 1. rewrite issue_eq. rewrite advance_advance. simpl.
  destruct (fate (fst (validateVersion client newVersion (remote s))))
    as [vr|r]; unfold ret, throw; eauto.
Qed.

Lemma conclude_eq client newVersion validationResponse (s : State R) :
  conclude client newVersion validationResponse s
  = if String.eqb (status validationResponse) "ok" then
      (match fate (fst (activateVersion client newVersion (remote s))) with
       | Resolve _ => Normal tt
       | Reject r => Throw (Raised r)
       end,
       advance s (snd (activateVersion client newVersion (remote s)))
         [ActivateVersion newVersion]
         (Info ("Version  " +:+ pretty newVersion +:+ " looks ok")
          :: match fate (fst (activateVersion client newVersion (remote s))) with
             | Resolve _ =>
                 [Success "Your VCL has been deployed.  Have a nice cup of tea and relax";
                  Art "tea" "success"]
             | Reject _ => []
             end))
    else (Throw (NewError "VCL failed validation for some unknown reason"), s).
Proof.
  unfold conclude. destruct (String.eqb (status validationResponse) "ok"); [|reflexivity].
  unfold bind at 1. rewrite log_eq.
  unfold bind at 1. rewrite issue_eq. rewrite advance_advance. simpl.
  unfold bind at 1, yield.
  destruct (fate (fst (activateVersion client newVersion (remote s)))) as [[]|r].
  - unfold ret at 1. unfold bind. rewrite !log_eq. rewrite !advance_advance. reflexivity.
  - reflexivity.
Qed.

(** *** Runs that go through *)

Lemma open_version_normal folder opts (s : State R) client vcls newVersion s1 :
  open_version W folder opts s = (Normal (client, vcls, newVersion), s1) ->
  exists key sid services service cloneResponse ls,
    configure opts s = (Normal (key, JString sid), s)
    /\ client = fastly W key (encodeURIComponent W sid)
    /\ loadVcl W folder (options_vars (assign_defaults opts))
         (load_env (assign_defaults opts) sid (process_env s)) = Resolve vcls
    /\ fate (fst (getServices client (remote s))) = Resolve services
    /\ List.find (fun x => String.eqb (service_id x) sid) services = Some service
    /\ fate (fst (cloneVersion client (service_version service)
                    (snd (getServices client (remote s))))) = Resolve cloneResponse
    /\ newVersion = number cloneResponse
    /\ s1 = advance (with_env s (load_env (assign_defaults opts) sid (process_env s)))
              (snd (cloneVersion client (service_version service)
                      (snd (getServices client (remote s)))))
              [GetServices; CloneVersion (service_version service)] ls.
Proof.
  unfold open_version. intros H.
  apply bind_normal_inv in H as ([key sid] & s0 & Hconf & H).
  assert (s0 = s) as -> by (rewrite <- (configure_state opts s); by rewrite Hconf).
  simpl in H.
  apply bind_normal_inv in H as (vcls' & s2 & Hload & H).
  rewrite load_eq in Hload. injection Hload as Hvcls <-.
  apply bind_normal_inv in H as (service & s3 & Hsvc & H).
  rewrite current_service_eq in Hsvc. injection Hsvc as Hsvc <-.
  apply bind_normal_inv in H as (nv & s4 & Hclone & H).
  destruct (clone_eq (fastly W key (encodeURIComponent W (to_text sid))) service
              (advance (with_env s (load_env (assign_defaults opts) (to_text sid)
                                      (process_env s)))
                 (snd (getServices (fastly W key (encodeURIComponent W (to_text sid)))
                         (remote s)))
                 [GetServices] [])) as [ls Hceq].
  simpl in Hclone, Hceq. rewrite Hceq in Hclone. clear Hceq.
  injection Hclone as Hnv <-. unfold ret in H. injection H as <- <- <- <-.
  destruct (loadVcl W folder _ _) as [vcls0|] eqn:Hl; [|discriminate].
  injection Hvcls as <-.
  destruct (fate (fst (getServices _ (remote s)))) as [services|] eqn:Hg; [|discriminate].
  destruct (List.find _ services) as [service'|] eqn:Hf; [|discriminate].
  injection Hsvc as <-.
  destruct (fate (fst (cloneVersion _ _ _))) as [cr|] eqn:Hc; [|discriminate].
  injection Hnv as <-.
  rewrite advance_advance. simpl.
  destruct sid as [sid|text].
  - simpl in *. do 6 eexists. repeat split; eauto.
  - apply find_some in Hf as [_ Hf]. discriminate.
Qed.

Lemma delete_old_normal client newVersion (s s' : State R) :
  delete_old client newVersion s = (Normal tt, s') ->
  exists oldVcl ls,
    fate (fst (getVcl client newVersion (remote s))) = Resolve oldVcl
    /\ (forall p,
          In p (fst (requests (fun vcl => deleteVcl client newVersion (vcl_name vcl))
                       oldVcl (snd (getVcl client newVersion (remote s))))) ->
          fate p = Resolve tt)
    /\ s' = advance s
              (snd (requests (fun vcl => deleteVcl client newVersion (vcl_name vcl))
                      oldVcl (snd (getVcl client newVersion (remote s)))))
              (GetVcl newVersion
               :: map (fun vcl => DeleteVcl newVersion (vcl_name vcl)) oldVcl) ls.
Proof.
  destruct (delete_old_eq client newVersion s) as [ls ->].
  destruct (fate (fst (getVcl client newVersion (remote s)))) as [oldVcl|];
    [|discriminate].
  cbv zeta. intros H. injection H as H <-.
  destruct (promise_all _) as [vs|] eqn:Hall; [|discriminate].
  exists oldVcl, ls. split; [reflexivity|]. split; [|reflexivity].
  intros p Hp.
  assert (Hres : exists vs, promise_all
            (fst (requests (fun vcl => deleteVcl client newVersion (vcl_name vcl))
                    oldVcl (snd (getVcl client newVersion (remote s))))) = Resolve vs)
    by eauto.
  rewrite promise_all_resolve in Hres. destruct (Hres p Hp) as [[] Ha]. exact Ha.
Qed.

Lemma upload_new_normal client newVersion vcls (s s' : State R) :
  upload_new client newVersion vcls s = (Normal tt, s') ->
  exists ls,
    (forall p,
       In p (fst (requests (fun vcl => updateVcl client newVersion
                               {| vcl_name := vcl_name vcl; vcl_content := vcl_content vcl |})
                    vcls (remote s))) ->
       fate p = Resolve tt)
    /\ s' = advance s
              (snd (requests (fun vcl => updateVcl client newVersion
                               {| vcl_name := vcl_name vcl; vcl_content := vcl_content vcl |})
                      vcls (remote s)))
              (map (fun vcl => UpdateVcl newVersion (vcl_name vcl) (vcl_content vcl)) vcls) ls.
Proof.
  destruct (upload_new_eq client newVersion vcls s) as [ls Heq].
  cbv zeta in Heq. rewrite Heq. clear Heq.
  intros H. injection H as H <-.
  destruct (promise_all _) as [vs|] eqn:Hall; [|discriminate].
  exists ls. split; [|reflexivity].
  intros p Hp.
  assert (Hres : exists vs, promise_all
            (fst (requests (fun vcl => updateVcl client newVersion
                               {| vcl_name := vcl_name vcl; vcl_content := vcl_content vcl |})
                    vcls (remote s))) = Resolve vs)
    by eauto.
  rewrite promise_all_resolve in Hres. destruct (Hres p Hp) as [[] Ha]. exact Ha.
Qed.

Lemma set_main_normal client newVersion options (s s' : State R) :
  set_main client newVersion options s = (Normal tt, s') ->
  exists ls,
    fate (fst (setVclAsMain client newVersion (options_main options) (remote s)))
      = Resolve tt
    /\ s' = advance s
              (snd (setVclAsMain client newVersion (options_main options) (remote s)))
              [SetVclAsMain newVersion (options_main options)] ls.
Proof.
  destruct (set_main_eq client newVersion options s) as [ls ->].
  intros H. injection H as H <-.
  destruct (fate _) as [[]|]; [|discriminate]. eauto.
Qed.

Lemma validate_normal client newVersion (s s' : State R) validationResponse :
  validate client newVersion s = (Normal validationResponse, s') ->
  exists ls,
    fate (fst (validateVersion client newVersion (remote s))) = Resolve validationResponse
    /\ s' = advance s (snd (validateVersion client newVersion (remote s)))
              [ValidateVersion newVersion] ls.
Proof.
  destruct (validate_eq client newVersion s) as [ls ->].
  intros H. injection H as H <-.
  destruct (fate _) as [vr|]; [|discriminate]. injection H as <-. eauto.
Qed.

(** The activation request is sent only under the status [ok]. *)
Lemma conclude_normal client newVersion validationResponse (s s' : State R) :
  conclude client newVersion validationResponse s = (Normal tt, s') ->
  exists ls,
    status validationResponse = "ok"
    /\ fate (fst (activateVersion client newVersion (remote s))) = Resolve tt
    /\ s' = advance s (snd (activateVersion client newVersion (remote s)))
              [ActivateVersion newVersion] ls.
Proof.
  rewrite conclude_eq.
  destruct (String.eqb (status validationResponse) "ok") eqn:Hok; [|discriminate].
  apply String.eqb_eq in Hok.
  intros H. injection H as H <-.
  destruct (fate _) as [[]|]; [|discriminate]. eauto.
Qed.

Lemma deploy_normal_inv folder opts (s s' : State R) :
  deploy W folder opts s = (Normal tt, s') ->
  exists client vcls newVersion validationResponse s1 s2 s3 s4 s5,
    open_version W folder opts s = (Normal (client, vcls, newVersion), s1)
    /\ delete_old client newVersion s1 = (Normal tt, s2)
    /\ upload_new client newVersion vcls s2 = (Normal tt, s3)
    /\ set_main client newVersion (assign_defaults opts) s3 = (Normal tt, s4)
    /\ validate client newVersion s4 = (Normal validationResponse, s5)
    /\ conclude client newVersion validationResponse s5 = (Normal tt, s').
Proof.
  unfold deploy, prepare. intros H.
  apply bind_normal_inv in H as ([[client nv] vr] & s5 & H & Hconc).
  apply bind_normal_inv in H as ([[client' vcls] nv'] & s1 & Hopen & H).
  apply bind_normal_inv in H as ([] & s2 & Hdel & H).
  apply bind_normal_inv in H as ([] & s3 & Hup & H).
  apply bind_normal_inv in H as ([] & s4 & Hmain & H).
  apply bind_normal_inv in H as (vr' & s5' & Hval & H).
  unfold ret in H. injection H as <- <- <- <-.
  exists client', vcls, nv', vr', s1, s2, s3, s4, s5'. auto 10.
Qed.

(** *** Runs and the activation request *)

Section Quiet.

Variable active : R -> Z.

Lemma quiet_refl (s : State R) : quiet active s s.
Proof. split; [|reflexivity]. exists []. by rewrite app_nil_r. Qed.

Lemma quiet_trans (s1 s2 s3 : State R) :
  quiet active s1 s2 -> quiet active s2 s3 -> quiet active s1 s3.
Proof.
  intros [(c1 & E1 & F1) A1] [(c2 & E2 & F2) A2]. split; [|congruence].
  exists (c1 ++ c2)%list. rewrite E2, E1, app_assoc, forallb_app, F1, F2. auto.
Qed.

Lemma quiet_advance (s : State R) r cs ls :
  forallb (fun c => negb (is_activation c)) cs = true ->
  active r = active (remote s) ->
  quiet active s (advance s r cs ls).
Proof. intros F A. split; [exists cs; auto|exact A]. Qed.

Lemma quiet_with_env (s : State R) penv : quiet active s (with_env s penv).
Proof. split; [|reflexivity]. exists []. simpl. by rewrite app_nil_r. Qed.

Lemma quiet_bind {A B} (m : M R A) (k : A -> M R B) s :
  quiet active s (snd (m s)) ->
  (forall a s1, m s = (Normal a, s1) -> quiet active s1 (snd (k a s1))) ->
  quiet active s (snd (bind m k s)).
Proof.
  unfold bind. destruct (m s) as [[a|e] s1]; simpl; [|auto].
  intros H1 H2. eapply quiet_trans; [exact H1|]. by apply H2.
Qed.

Lemma requests_keeps {A B} (op : A -> R -> promise B * R) xs r :
  (forall x r', active (snd (op x r')) = active r') ->
  active (snd (requests op xs r)) = active r.
Proof.
  intros Hop. revert r. induction xs as [|x xs IH]; intros r; simpl; [reflexivity|].
  specialize (Hop x r). destruct (op x r) as [p r1]. simpl in Hop.
  specialize (IH r1). destruct (requests op xs r1) as [ps r2]. simpl in *. congruence.
Qed.

Lemma no_activation_map {A} (c : A -> call) xs :
  (forall x, is_activation (c x) = false) ->
  forallb (fun c => negb (is_activation c)) (map c xs) = true.
Proof.
  intros H. induction xs as [|x xs IH]; simpl; [reflexivity|]. by rewrite H, IH.
Qed.

Hypothesis frame : forall key id, pointer_written_by_activation_only active (fastly W key id).

Lemma open_version_quiet folder opts s :
  quiet active s (snd (open_version W folder opts s)).
Proof.
  unfold open_version. apply quiet_bind.
  { rewrite configure_state. apply quiet_refl. }
  intros [key sid] s0 _. simpl. apply quiet_bind.
  { rewrite load_eq. apply quiet_with_env. }
  intros vcls s1 _. apply quiet_bind.
  { rewrite current_service_eq. apply quiet_advance; [reflexivity|].
    apply (getServices_keeps _ _ (frame key _)). }
  intros service s2 _. apply quiet_bind; [|intros; apply quiet_refl].
  destruct (clone_eq (fastly W key (encodeURIComponent W (to_text sid))) service s2)
    as [ls ->].
  apply quiet_advance; [reflexivity|]. apply (cloneVersion_keeps _ _ (frame key _)).
Qed.

Lemma delete_old_quiet key id newVersion s :
  quiet active s (snd (delete_old (fastly W key id) newVersion s)).
Proof.
  destruct (delete_old_eq (fastly W key id) newVersion s) as [ls ->].
  pose proof (frame key id) as F.
  destruct (fate _) as [oldVcl|]; simpl; apply quiet_advance.
  - simpl. by apply no_activation_map.
  - rewrite requests_keeps; [apply (getVcl_keeps _ _ F)|].
    intros x r'. apply (deleteVcl_keeps _ _ F).
  - reflexivity.
  - apply (getVcl_keeps _ _ F).
Qed.

Lemma upload_new_quiet key id newVersion vcls s :
  quiet active s (snd (upload_new (fastly W key id) newVersion vcls s)).
Proof.
  destruct (upload_new_eq (fastly W key id) newVersion vcls s) as [ls E].
  cbv zeta in E. rewrite E. pose proof (frame key id) as F.
  apply quiet_advance; [by apply no_activation_map|].
  apply requests_keeps. intros x r'. apply (updateVcl_keeps _ _ F).
Qed.

Lemma set_main_quiet key id newVersion options s :
  quiet active s (snd (set_main (fastly W key id) newVersion options s)).
Proof.
  destruct (set_main_eq (fastly W key id) newVersion options s) as [ls ->].
  apply quiet_advance; [reflexivity|]. apply (setVclAsMain_keeps _ _ (frame key id)).
Qed.

Lemma validate_quiet key id newVersion s :
  quiet active s (snd (validate (fastly W key id) newVersion s)).
Proof.
  destruct (validate_eq (fastly W key id) newVersion s) as [ls ->].
  apply quiet_advance; [reflexivity|]. apply (validateVersion_keeps _ _ (frame key id)).
Qed.

(** Up to and including validation no activation is requested and the
    pointer stays where it was, however the steps end. *)
Lemma prepare_quiet folder opts s :
  quiet active s (snd (prepare W folder opts s)).
Proof.
  unfold prepare. apply quiet_bind; [apply open_version_quiet|].
  intros [[client vcls] newVersion] s1 Hopen.
  apply open_version_normal in Hopen as (key & sid & _ & _ & _ & _ & _ & -> & _).
  apply quiet_bind; [apply delete_old_quiet|]. intros _ s2 _.
  apply quiet_bind; [apply upload_new_quiet|]. intros _ s3 _.
  apply quiet_bind; [apply set_main_quiet|]. intros _ s4 _.
  apply quiet_bind; [apply validate_quiet|]. intros vr s5 _. apply quiet_refl.
Qed.

End Quiet.

(** *** The handler *)

Lemma prelude_calls opts (s : State R) : calls (prelude W opts s) = calls s.
Proof. unfold prelude. by destruct (options_env _). Qed.

Lemma prelude_remote opts (s : State R) : remote (prelude W opts s) = remote s.
Proof. unfold prelude. by destruct (options_env _). Qed.

Lemma on_error_calls err (s : State R) : calls (snd (on_error err s)) = calls s.
Proof. by destruct err as [| | |[]]. Qed.

Lemma on_error_remote err (s : State R) : remote (snd (on_error err s)) = remote s.
Proof. by destruct err as [| | |[]]. Qed.

Lemma on_error_not_fulfilled err (s : State R) : fst (on_error err s) <> Fulfilled.
Proof. by destruct err as [| | |[]]. Qed.

Lemma task_fulfilled folder opts (s : State R) :
  fst (task W folder opts s) = Fulfilled ->
  deploy W folder opts (prelude W opts s) = (Normal tt, snd (task W folder opts s)).
Proof.
  unfold task. destruct (deploy W folder opts (prelude W opts s)) as [[[]|err] s'];
    [reflexivity|].
  intros H. by apply on_error_not_fulfilled in H.
Qed.

Lemma task_throw folder opts (s : State R) err s' :
  deploy W folder opts (prelude W opts s) = (Throw err, s') ->
  task W folder opts s = on_error err s'.
Proof. unfold task. by intros ->. Qed.

Lemma filter_map_all {A} (f : call -> bool) (c : A -> call) xs :
  (forall x, f (c x) = true) -> List.filter f (map c xs) = map c xs.
Proof.
  intros H. induction xs as [|x xs IH]; simpl; [reflexivity|]. by rewrite H, IH.
Qed.

(** ** The claims *)


Lemma no_activation_in cs v :
  forallb (fun c => negb (is_activation c)) cs = true -> ~ In (ActivateVersion v) cs.
Proof.
  rewrite forallb_forall. intros H Hin. by specialize (H _ Hin).
Qed.

(** A run whose steps through validation do not lead to an activation: it
    does not end fulfilled, and it has been quiet from start to end. *)
Lemma stopped_run_quiet (active : R -> Z) folder opts (s : State R) :
  (forall key id, pointer_written_by_activation_only active (fastly W key id)) ->
  stops_before_activation (fst (prepare W folder opts (prelude W opts s))) ->
  fst (task W folder opts s) <> Fulfilled
  /\ quiet active s (snd (task W folder opts s)).
Proof.
  intros frame Hstop.
  pose proof (prepare_quiet active frame folder opts (prelude W opts s)) as Hq.
  assert (exists e, deploy W folder opts (prelude W opts s)
                    = (Throw e, snd (prepare W folder opts (prelude W opts s))))
    as [e He].
  { unfold deploy, bind.
    destruct (prepare W folder opts (prelude W opts s)) as [[[[client nv] vr]|e] s1];
      simpl in *; [|eauto].
    rewrite conclude_eq, Hstop. eauto. }
  rewrite (task_throw _ _ _ _ _ He).
  split; [apply on_error_not_fulfilled|].
  destruct Hq as [(cs & Hcs & Hno) Hact].
  rewrite prelude_calls in Hcs. rewrite prelude_remote in Hact.
  split; [|by rewrite on_error_remote].
  exists cs. by rewrite on_error_calls.
Qed.

(** The pointer of a remote end that has none: every client satisfies the
    frame condition for it. *)
Lemma constant_pointer (client : Client R) :
  pointer_written_by_activation_only (fun _ => 0) client.
Proof. by split. Qed.

(** Whatever the run, an activation among its calls was requested for the
    version that validation had just accepted. *)
Lemma activation_follows_validation folder opts (s : State R) cs v :
  calls (snd (task W folder opts s)) = (calls s ++ cs)%list ->
  In (ActivateVersion v) cs ->
  exists client validationResponse s1,
    prepare W folder opts (prelude W opts s)
      = (Normal (client, v, validationResponse), s1)
    /\ status validationResponse = "ok".
Proof.
  intros Hcs Hin.
  destruct (prepare W folder opts (prelude W opts s))
    as [[[[client nv] vr]|e] s1] eqn:Hp.
  - destruct (String.eqb (status vr) "ok") eqn:Hok.
    + apply String.eqb_eq in Hok.
      pose proof (prepare_quiet (fun _ => 0) (fun _ _ => constant_pointer _)
                    folder opts (prelude W opts s)) as [(cs1 & Hcs1 & Hno) _].
      rewrite Hp, prelude_calls in Hcs1. simpl in Hcs1.
      assert (Hcalls : calls (snd (task W folder opts s))
                       = (calls s1 ++ [ActivateVersion nv])%list).
      { unfold task, deploy. rewrite (bind_normal _ _ _ _ _ Hp), conclude_eq.
        apply String.eqb_eq in Hok. rewrite Hok.
        destruct (fate _) as [[]|r]; [reflexivity|]. by rewrite on_error_calls. }
      rewrite Hcalls, Hcs1, <- app_assoc in Hcs. apply app_inv_head in Hcs. subst cs.
      apply in_app_or in Hin as [Hin|[[= <-]|[]]].
      * by apply no_activation_in in Hin.
      * eauto.
    + destruct (stopped_run_quiet (fun _ => 0) folder opts s
                  (fun _ _ => constant_pointer _)) as [_ [(cs' & Hcs' & Hno) _]].
      { by rewrite Hp. }
      rewrite Hcs' in Hcs. apply app_inv_head in Hcs. subst cs'.
      by apply no_activation_in in Hin.
  - destruct (stopped_run_quiet (fun _ => 0) folder opts s
                (fun _ _ => constant_pointer _)) as [_ [(cs' & Hcs' & Hno) _]].
    { by rewrite Hp. }
    rewrite Hcs' in Hcs. apply app_inv_head in Hcs. subst cs'.
    by apply no_activation_in in Hin.
Qed.

(** C1. A run that completes successfully has issued, after looking the
    service up, exactly: the clone of the active version of that service,
    the listing of the inherited files, one deletion per inherited file, one
    upload per file that [loadVcl] returned, the setting of the entry point,
    the validation and the activation, in this order.  With the two read-only
    queries left out this is clone, deletes, uploads, set-entry-point,
    validate, activate.  The activation was requested on the remote state
    left by a validation that had resolved with status [ok]; and in any run,
    successful or not, an activation among the calls was requested for the
    version that validation had just answered [ok] for. *)
Theorem C1_successful_run_call_sequence folder opts (s : State R) :
  (forall cs v,
     calls (snd (task W folder opts s)) = (calls s ++ cs)%list ->
     In (ActivateVersion v) cs ->
     exists client validationResponse s1,
       prepare W folder opts (prelude W opts s)
         = (Normal (client, v, validationResponse), s1)
       /\ status validationResponse = "ok")
  /\ (fst (task W folder opts s) = Fulfilled ->
      exists key sid services service cloneResponse oldVcl vcls validationResponse cs,
    let client := fastly W key (encodeURIComponent W sid) in
    let options := assign_defaults opts in
    let newVersion := number cloneResponse in
    let deletes := map (fun vcl => DeleteVcl newVersion (vcl_name vcl)) oldVcl in
    let uploads :=
      map (fun vcl => UpdateVcl newVersion (vcl_name vcl) (vcl_content vcl)) vcls in
    let r1 := snd (getServices client (remote s)) in
    let r2 := snd (cloneVersion client (service_version service) r1) in
    let r3 := snd (getVcl client newVersion r2) in
    let r4 := snd (requests (fun vcl => deleteVcl client newVersion (vcl_name vcl))
                     oldVcl r3) in
    let r5 := snd (requests (fun vcl => updateVcl client newVersion
                               {| vcl_name := vcl_name vcl; vcl_content := vcl_content vcl |})
                     vcls r4) in
    let r6 := snd (setVclAsMain client newVersion (options_main options) r5) in
    let r7 := snd (validateVersion client newVersion r6) in
    loadVcl W folder (options_vars options)
      (load_env options sid (process_env (prelude W opts s))) = Resolve vcls
    /\ fate (fst (getServices client (remote s))) = Resolve services
    /\ List.find (fun x => String.eqb (service_id x) sid) services = Some service
    /\ fate (fst (cloneVersion client (service_version service) r1)) = Resolve cloneResponse
    /\ fate (fst (getVcl client newVersion r2)) = Resolve oldVcl
    /\ calls (snd (task W folder opts s)) = (calls s ++ cs)%list
    /\ cs = ([GetServices; CloneVersion (service_version service); GetVcl newVersion]
             ++ deletes ++ uploads
             ++ [SetVclAsMain newVersion (options_main options);
                 ValidateVersion newVersion; ActivateVersion newVersion])%list
    /\ List.filter (fun c => negb (is_query c)) cs
       = (CloneVersion (service_version service) :: deletes ++ uploads
          ++ [SetVclAsMain newVersion (options_main options);
              ValidateVersion newVersion; ActivateVersion newVersion])%list
    /\ fate (fst (validateVersion client newVersion r6)) = Resolve validationResponse
    /\ status validationResponse = "ok"
    /\ fate (fst (activateVersion client newVersion r7)) = Resolve tt
    /\ remote (snd (task W folder opts s)) = snd (activateVersion client newVersion r7)).
Proof.
  split; [intros cs v; apply activation_follows_validation|].
  intros Hok. apply task_fulfilled in Hok.
  destruct (deploy_normal_inv _ _ _ _ Hok)
    as (client & vcls & nv & vr & s1 & s2 & s3 & s4 & s5
        & Hopen & Hdel & Hup & Hmain & Hval & Hconc).
  apply open_version_normal in Hopen
    as (key & sid & services & service & cr & ls1
        & _ & -> & Hload & Hget & Hfind & Hclone & -> & ->).
  apply delete_old_normal in Hdel as (oldVcl & ls2 & Hold & _ & ->).
  apply upload_new_normal in Hup as (ls3 & _ & ->).
  apply set_main_normal in Hmain as (ls4 & _ & ->).
  apply validate_normal in Hval as (ls5 & Hvr & ->).
  apply conclude_normal in Hconc as (ls6 & Hstatus & Hact & Hs').
  simpl in Hold, Hvr, Hact, Hs'. rewrite prelude_remote in *.
  exists key, sid, services, service, cr, oldVcl, vcls, vr.
  eexists. cbv zeta.
  split; [exact Hload|]. split; [exact Hget|]. split; [exact Hfind|].
  split; [exact Hclone|]. split; [exact Hold|].
  split; [rewrite Hs'; simpl; rewrite prelude_calls, <- !app_assoc; reflexivity|].
  split; [simpl; reflexivity|].
  split.
  { simpl. rewrite !List.filter_app, !filter_map_all by reflexivity. reflexivity. }
  split; [exact Hvr|]. split; [exact Hstatus|].
  split; [exact Hact|]. rewrite Hs'. reflexivity.
Qed.

(** C2. When a step up to and including validation fails (it throws, or
    validation resolves with a status other than [ok]), the run does not end
    fulfilled, none of the calls it has issued is an activation, and the
    active version of the service at the end is the one at the start.  The
    remote end is any client whose active-version pointer is written by
    activation only. *)
Theorem C2_failed_run_never_activates (active : R -> Z) folder opts (s : State R) :
  (forall key id, pointer_written_by_activation_only active (fastly W key id)) ->
  stops_before_activation (fst (prepare W folder opts (prelude W opts s))) ->
  fst (task W folder opts s) <> Fulfilled
  /\ (exists cs,
        calls (snd (task W folder opts s)) = (calls s ++ cs)%list
        /\ forall v, ~ In (ActivateVersion v) cs)
  /\ active (remote (snd (task W folder opts s))) = active (remote s).
Proof.
  intros frame Hstop.
  destruct (stopped_run_quiet active folder opts s frame Hstop)
    as [Hnot [(cs & Hcs & Hno) Hact]].
  split; [exact Hnot|]. split; [|exact Hact].
  exists cs. split; [exact Hcs|]. intros v. by apply no_activation_in.
Qed.

(** *** The files of the new version *)

Section Files.

Variable files : R -> Z -> gmap string string.
Variable active : R -> Z.
Variable client : Client R.
Hypothesis store : file_store files active client.

Lemma requests_cons {A B} (op : A -> R -> promise B * R) x xs r :
  requests op (x :: xs) r
  = (fst (op x r) :: fst (requests op xs (snd (op x r))),
     snd (requests op xs (snd (op x r)))).
Proof.
  simpl. destruct (op x r) as [p r1]. simpl. by destruct (requests op xs r1).
Qed.

Lemma deletions_remove newVersion oldVcl r :
  (forall p,
     In p (fst (requests (fun vcl => deleteVcl client newVersion (vcl_name vcl)) oldVcl r)) ->
     fate p = Resolve tt) ->
  files (snd (requests (fun vcl => deleteVcl client newVersion (vcl_name vcl)) oldVcl r))
    newVersion
  = fold_left (fun m vcl => delete (vcl_name vcl) m) oldVcl (files r newVersion).
Proof.
  revert r. induction oldVcl as [|x xs IH]; intros r Hall; [reflexivity|].
  rewrite requests_cons in *. simpl in *.
  rewrite IH by (intros p Hp; apply Hall; auto).
  f_equal. apply (deleteVcl_removes _ _ _ store). apply Hall. auto.
Qed.

Lemma uploads_store newVersion vcls r :
  (forall p,
     In p (fst (requests (fun vcl => updateVcl client newVersion
                             {| vcl_name := vcl_name vcl; vcl_content := vcl_content vcl |})
                  vcls r)) ->
     fate p = Resolve tt) ->
  files (snd (requests (fun vcl => updateVcl client newVersion
                          {| vcl_name := vcl_name vcl; vcl_content := vcl_content vcl |})
                vcls r))
    newVersion
  = fold_left (fun m vcl => <[vcl_name vcl := vcl_content vcl]> m) vcls (files r newVersion).
Proof.
  revert r. induction vcls as [|x xs IH]; intros r Hall; [reflexivity|].
  rewrite requests_cons in *. simpl in *.
  rewrite IH by (intros p Hp; apply Hall; auto).
  f_equal.
  rewrite (updateVcl_stores _ _ _ store) by (apply Hall; auto). reflexivity.
Qed.

End Files.

(** Deleting every listed name leaves nothing when the list covers the map. *)
Lemma delete_all_listed (oldVcl : list Vcl) (m : gmap string string) :
  (forall n, is_Some (m !! n) -> In n (map vcl_name oldVcl)) ->
  fold_left (fun m vcl => delete (vcl_name vcl) m) oldVcl m = ∅.
Proof.
  revert m. induction oldVcl as [|x xs IH]; intros m Hcover; simpl.
  - apply map_empty. intros n. destruct (m !! n) eqn:E; [|reflexivity].
    destruct (Hcover n); eauto.
  - apply IH. intros n [c Hn].
    destruct (decide (vcl_name x = n)) as [<-|Hne].
    + by rewrite lookup_delete_eq in Hn.
    + rewrite lookup_delete_ne in Hn by done.
      destruct (Hcover n) as [|]; [eauto|congruence|assumption].
Qed.

(** Storing files with distinct names one after the other gives exactly
    these files. *)
Lemma insert_all_lookup (vcls : list Vcl) (m : gmap string string) n c :
  NoDup (map vcl_name vcls) ->
  fold_left (fun m vcl => <[vcl_name vcl := vcl_content vcl]> m) vcls m !! n = Some c
  <-> In {| vcl_name := n; vcl_content := c |} vcls
      \/ (~ In n (map vcl_name vcls) /\ m !! n = Some c).
Proof.
  revert m. induction vcls as [|x xs IH]; intros m Hnd.
  - simpl. tauto.
  - cbn [fold_left map In] in *. apply NoDup_cons in Hnd as [Hx Hxs].
    rewrite list_elem_of_In in Hx. rewrite IH by assumption. clear IH.
    assert (Hin : forall c',
              In {| vcl_name := vcl_name x; vcl_content := c' |} xs -> False).
    { intros c' H. apply Hx. apply in_map_iff. eexists. split; [|exact H]. reflexivity. }
    destruct (decide (vcl_name x = n)) as [<-|Hne].
    + rewrite lookup_insert_eq. split.
      * intros [H|[_ [= <-]]]; [by apply Hin in H|]. left. left. by destruct x.
      * intros [[E|H]|[Hnot _]].
        -- right. split; [assumption|]. by rewrite E.
        -- by apply Hin in H.
        -- exfalso. apply Hnot. auto.
    + rewrite lookup_insert_ne by done. split.
      * intros [H|[Hnot Hm]]; [left; right; exact H|].
        right. split; [|exact Hm]. intros [?|?]; [congruence|auto].
      * intros [[E|H]|[Hnot Hm]].
        -- rewrite E in Hne. simpl in Hne. congruence.
        -- auto.
        -- right. split; [|exact Hm]. intros ?. apply Hnot. auto.
Qed.

(** C5. After a successful run the version that is now active holds
    exactly the files [loadVcl] returned: a name has a content there if and
    only if that pair is one of these files.  Before the first upload the
    new version was empty.  The remote end is any client that implements the
    file operations on versions; the names of the files to upload are
    distinct. *)
Theorem C5_activated_version_holds_exactly_the_new_files
    (files : R -> Z -> gmap string string) (active : R -> Z) folder opts (s : State R) :
  (forall key id, file_store files active (fastly W key id)) ->
  (forall vars penv vcls,
     loadVcl W folder vars penv = Resolve vcls -> NoDup (map vcl_name vcls)) ->
  fst (task W folder opts s) = Fulfilled ->
  exists sid vcls cleaned,
    loadVcl W folder (options_vars (assign_defaults opts))
      (load_env (assign_defaults opts) sid (process_env (prelude W opts s))) = Resolve vcls
    /\ files cleaned (active (remote (snd (task W folder opts s)))) = ∅
    /\ files (remote (snd (task W folder opts s)))
         (active (remote (snd (task W folder opts s))))
       = fold_left (fun m vcl => <[vcl_name vcl := vcl_content vcl]> m) vcls
           (files cleaned (active (remote (snd (task W folder opts s)))))
    /\ forall n c,
         files (remote (snd (task W folder opts s)))
           (active (remote (snd (task W folder opts s)))) !! n = Some c
         <-> In {| vcl_name := n; vcl_content := c |} vcls.
Proof.
  intros Hstore Hnames Hok. apply task_fulfilled in Hok.
  destruct (deploy_normal_inv _ _ _ _ Hok)
    as (client & vcls & nv & vr & s1 & s2 & s3 & s4 & s5
        & Hopen & Hdel & Hup & Hmain & Hval & Hconc).
  apply open_version_normal in Hopen
    as (key & sid & services & service & cr & ls1
        & _ & -> & Hload & Hget & Hfind & Hclone & -> & ->).
  pose proof (Hstore key (encodeURIComponent W sid)) as St.
  apply delete_old_normal in Hdel as (oldVcl & ls2 & Hold & Hdels & ->).
  apply upload_new_normal in Hup as (ls3 & Hups & ->).
  apply set_main_normal in Hmain as (ls4 & _ & ->).
  apply validate_normal in Hval as (ls5 & Hvr & ->).
  apply conclude_normal in Hconc as (ls6 & Hstatus & Hact & Hs').
  simpl in Hold, Hdels, Hups, Hvr, Hact, Hs'.
  destruct (activateVersion_activates _ _ _ St _ _ Hact) as [Hfiles Hactive].
  rewrite Hs'. simpl. rewrite Hactive, Hfiles.
  rewrite (validateVersion_files _ _ _ St), (setVclAsMain_files _ _ _ St).
  rewrite (uploads_store _ _ _ St _ _ _ Hups).
  pose proof (deletions_remove _ _ _ St _ _ _ Hdels) as Hclean.
  destruct (getVcl_lists _ _ _ St _ _ _ Hold) as [Hsame Hcover].
  rewrite Hsame in Hclean.
  rewrite (delete_all_listed _ _ Hcover) in Hclean.
  eexists sid, vcls, _. split; [exact Hload|]. split; [exact Hclean|].
  split; [reflexivity|].
  intros n c. rewrite Hclean.
  rewrite insert_all_lookup by (eapply Hnames; exact Hload).
  rewrite lookup_empty. split; [intros [?|[_ ?]]; [assumption|discriminate]|auto].
Qed.

(** *** What the generator throws *)

Lemma configure_throws opts (s s' : State R) e :
  configure opts s = (Throw e, s') -> configuration_error e /\ s' = s.
Proof.
  intros H. destruct (configure_cases opts s) as [(e0 & He & Hc)|(key & sid & Hc & _)];
    rewrite Hc in H; [|discriminate].
  injection H as <- <-. auto.
Qed.

Lemma configuration_error_not_tagged e : configuration_error e -> is_tagged e = false.
Proof. by intros [->|[->| ->]]. Qed.

Lemma open_version_not_tagged folder opts (s s' : State R) e :
  open_version W folder opts s = (Throw e, s') -> is_tagged e = false.
Proof.
  unfold open_version. intros H.
  apply bind_throw_inv in H as [H|([key sid] & s0 & _ & H)].
  { apply configure_throws in H as [H _]. by apply configuration_error_not_tagged. }
  simpl in H. apply bind_throw_inv in H as [H|(vcls & s1 & _ & H)].
  { rewrite load_eq in H. destruct (loadVcl _ _ _ _); [discriminate|]. by injection H as <- _. }
  apply bind_throw_inv in H as [H|(service & s2 & _ & H)].
  { rewrite current_service_eq in H. destruct (fate _) as [services|].
    - destruct (List.find _ _); [discriminate|]. by injection H as <- _.
    - by injection H as <- _. }
  apply bind_throw_inv in H as [H|(nv & s3 & _ & H)]; [|discriminate].
  destruct (clone_eq (fastly W key (encodeURIComponent W (to_text sid))) service s2)
    as [ls E].
  rewrite E in H. destruct (fate _); [discriminate|]. by injection H as <- _.
Qed.

(** The generator never throws the tagged error: the only place that
    builds it, the [catch] callback of the validation, throws its argument
    instead. *)
Lemma deploy_not_tagged folder opts (s s' : State R) e :
  deploy W folder opts s = (Throw e, s') -> is_tagged e = false.
Proof.
  unfold deploy, prepare. intros H.
  apply bind_throw_inv in H as [H|([[client nv] vr] & s5 & _ & H)].
  - apply bind_throw_inv in H as [H|([[client vcls] nv] & s1 & _ & H)].
    { by apply open_version_not_tagged in H. }
    apply bind_throw_inv in H as [H|(_ & s2 & _ & H)].
    { destruct (delete_old_eq client nv s1) as [ls E]. rewrite E in H.
      destruct (fate _); [cbv zeta in H; destruct (promise_all _); [discriminate|]|];
        by injection H as <- _. }
    apply bind_throw_inv in H as [H|(_ & s3 & _ & H)].
    { destruct (upload_new_eq client nv vcls s2) as [ls E]. cbv zeta in E.
      rewrite E in H. destruct (promise_all _); [discriminate|]. by injection H as <- _. }
    apply bind_throw_inv in H as [H|(_ & s4 & _ & H)].
    { destruct (set_main_eq client nv (assign_defaults opts) s3) as [ls E].
      rewrite E in H. destruct (fate _); [discriminate|]. by injection H as <- _. }
    apply bind_throw_inv in H as [H|(vr & s5 & _ & H)]; [|discriminate].
    destruct (validate_eq client nv s4) as [ls E].
    rewrite E in H. destruct (fate _); [discriminate|]. by injection H as <- _.
  - rewrite conclude_eq in H. destruct (String.eqb _ _).
    + destruct (fate _); [discriminate|]. by injection H as <- _.
    + by injection H as <- _.
Qed.

Lemma prelude_logs opts (s : State R) : logs (prelude W opts s) = logs s.
Proof. unfold prelude. by destruct (options_env _). Qed.

(** What the handler does with an error that is neither tagged nor
    null/undefined: one line for the logger, then [exit]. *)
Lemma on_error_generic err (s : State R) :
  is_tagged err = false -> err <> Raised Nullish ->
  on_error err s = (Exited "Bailing...", advance s (remote s) [] [Error (StackOf err)]).
Proof.
  intros Htag Hnull. destruct err as [| | |[]]; try discriminate; try congruence;
    unfold on_error; rewrite log_eq; reflexivity.
Qed.

(** C6. When the API key is missing from the environment (or empty), or the
    service option is not given, or the service id resolves to nothing, the
    generator throws one of the three errors of its opening checks; no client
    method has been called and the remote state is untouched; the handler
    logs the error and exits. *)
Theorem C6_configuration_errors_precede_any_call folder opts (s : State R) :
  truthy (process_env (prelude W opts s) !! "FASTLY_APIKEY") = false
  \/ service opts = None
  \/ truthy_value (resolveServiceId (process_env (prelude W opts s)) opts) = false ->
  exists e,
    configuration_error e
    /\ fst (deploy W folder opts (prelude W opts s)) = Throw e
    /\ calls (snd (task W folder opts s)) = calls s
    /\ remote (snd (task W folder opts s)) = remote s
    /\ fst (task W folder opts s) = Exited "Bailing..."
    /\ logs (snd (task W folder opts s)) = (logs s ++ [Error (StackOf e)])%list.
Proof.
  intros Hbad.
  destruct (configure_cases opts (prelude W opts s))
    as [(e & He & Hc)|(key & sid & _ & Hs & Hk & Hk' & Hi & Hi')].
  - exists e. split; [exact He|].
    assert (Hd : deploy W folder opts (prelude W opts s) = (Throw e, prelude W opts s)).
    { unfold deploy, prepare, open_version. do 3 apply bind_throw. exact Hc. }
    rewrite (task_throw _ _ _ _ _ Hd), Hd.
    rewrite on_error_generic.
    + simpl. rewrite prelude_calls, prelude_remote, prelude_logs, app_nil_r. auto.
    + by apply configuration_error_not_tagged.
    + by destruct He as [->|[->| ->]].
  - exfalso. destruct Hbad as [H|[H|H]].
    + rewrite Hk in H. simpl in H. apply negb_false_iff, String.eqb_eq in H. done.
    + rewrite H in Hs. discriminate.
    + rewrite Hi in H. congruence.
Qed.

Lemma find_no_match (serviceId : js_value) (services : list Service) :
  (forall x, In x services -> JString (service_id x) <> serviceId) ->
  List.find (fun x => strict_equal (service_id x) serviceId) services = None.
Proof.
  intros H. destruct (List.find _ services) as [x|] eqn:E; [|reflexivity].
  apply find_some in E as [Hin Heq]. destruct serviceId as [sid|text]; [|discriminate].
  apply String.eqb_eq in Heq. apply H in Hin. congruence.
Qed.

(** C7 (as the code has it). When no listed service has the resolved id
    (for one, when the id is no string but a member of [Object.prototype]
    that the read of [process.env] fell through to), the lookup yields
    undefined and reading its [version] raises a runtime TypeError: this is
    what the generator throws, no error of its own.  Only the listing of the
    services has been requested; the handler logs the error and exits. *)
Theorem C7_unknown_service_fails_on_version_read
    folder opts (s : State R) key serviceId vcls services :
  configure opts (prelude W opts s) = (Normal (key, serviceId), prelude W opts s) ->
  loadVcl W folder (options_vars (assign_defaults opts))
    (load_env (assign_defaults opts) (to_text serviceId)
       (process_env (prelude W opts s))) = Resolve vcls ->
  fate (fst (getServices (fastly W key (encodeURIComponent W (to_text serviceId)))
               (remote s)))
    = Resolve services ->
  (forall x, In x services -> JString (service_id x) <> serviceId) ->
  fst (deploy W folder opts (prelude W opts s)) = Throw (TypeError "version")
  /\ calls (snd (task W folder opts s)) = (calls s ++ [GetServices])%list
  /\ fst (task W folder opts s) = Exited "Bailing..."
  /\ exists ls, logs (snd (task W folder opts s))
                = (ls ++ [Error (StackOf (TypeError "version"))])%list.
Proof.
  intros Hconf Hload Hget Hnone. apply find_no_match in Hnone.
  rewrite <- (prelude_remote opts s) in Hget.
  assert (exists s', deploy W folder opts (prelude W opts s) = (Throw (TypeError "version"), s')
                     /\ calls s' = (calls s ++ [GetServices])%list) as (s' & Hd & Hcalls).
  { eexists. split.
    - unfold deploy, prepare, open_version. do 2 apply bind_throw.
      rewrite (bind_normal _ _ _ _ _ Hconf). simpl.
      erewrite bind_normal; [|rewrite load_eq, Hload; reflexivity].
      apply bind_throw. rewrite current_service_eq. simpl. rewrite Hget, Hnone.
      reflexivity.
    - simpl. by rewrite prelude_calls. }
  rewrite (task_throw _ _ _ _ _ Hd), Hd. rewrite on_error_generic by done.
  simpl. rewrite app_nil_r. eauto.
Qed.

(** C8 (as the code has it). Once the new version is open and its files
    are listed, the delete step goes through exactly when every deletion
    resolves, and the upload step exactly when every upload resolves.  When
    one of the requests of a step is rejected, what the generator throws is
    the rejection reason of one of the rejected requests, as the client gave
    it; every request of that step has been sent and no call follows it: no
    upload after a failed deletion, no compensating call, no activation. *)
Theorem C8_fan_out_fails_with_a_reason_from_the_client
    folder opts (s : State R) client vcls newVersion s1 oldVcl :
  open_version W folder opts (prelude W opts s) = (Normal (client, vcls, newVersion), s1) ->
  fate (fst (getVcl client newVersion (remote s1))) = Resolve oldVcl ->
  let deletions :=
    requests (fun vcl => deleteVcl client newVersion (vcl_name vcl)) oldVcl
      (snd (getVcl client newVersion (remote s1))) in
  let uploads :=
    requests (fun vcl => updateVcl client newVersion
                {| vcl_name := vcl_name vcl; vcl_content := vcl_content vcl |})
      vcls (snd deletions) in
  let deleted :=
    (GetVcl newVersion
     :: map (fun vcl => DeleteVcl newVersion (vcl_name vcl)) oldVcl)%list in
  let uploaded :=
    map (fun vcl => UpdateVcl newVersion (vcl_name vcl) (vcl_content vcl)) vcls in
  (fst (delete_old client newVersion s1) = Normal tt
   <-> forall p, In p (fst deletions) -> fate p = Resolve tt)
  /\ (forall e,
        fst (delete_old client newVersion s1) = Throw e ->
        (exists p r, In p (fst deletions) /\ fate p = Reject r /\ e = Raised r)
        /\ fst (deploy W folder opts (prelude W opts s)) = Throw e
        /\ calls (snd (task W folder opts s)) = (calls s1 ++ deleted)%list)
  /\ (fst (delete_old client newVersion s1) = Normal tt ->
      (fst (upload_new client newVersion vcls (snd (delete_old client newVersion s1)))
         = Normal tt
       <-> forall p, In p (fst uploads) -> fate p = Resolve tt)
      /\ forall e,
           fst (upload_new client newVersion vcls (snd (delete_old client newVersion s1)))
             = Throw e ->
           (exists p r, In p (fst uploads) /\ fate p = Reject r /\ e = Raised r)
           /\ fst (deploy W folder opts (prelude W opts s)) = Throw e
           /\ calls (snd (task W folder opts s))
              = (calls s1 ++ deleted ++ uploaded)%list).
Proof.
  intros Hopen Hold. cbv zeta.
  destruct (delete_old_eq client newVersion s1) as [ls Ed].
  rewrite Hold in Ed. cbv zeta in Ed.
  set (dels := requests (fun vcl => deleteVcl client newVersion (vcl_name vcl)) oldVcl
                 (snd (getVcl client newVersion (remote s1)))) in *.
  assert (Hunit : forall ps : list (promise unit),
            (exists vs, promise_all ps = Resolve vs)
            <-> forall p, In p ps -> fate p = Resolve tt).
  { intros ps. rewrite promise_all_resolve. split; intros H p Hp.
    - destruct (H p Hp) as [[] Ha]. exact Ha.
    - eauto. }
  split; [|split].
  - rewrite Ed. simpl. rewrite <- Hunit. split.
    + destruct (promise_all (fst dels)); [eauto|discriminate].
    + by intros [vs ->].
  - intros e He. rewrite Ed in He. simpl in He.
    destruct (promise_all (fst dels)) as [vs|r] eqn:Hall; [discriminate|].
    injection He as <-.
    split.
    { apply promise_all_reject in Hall as (p & Hp & Hr). eauto. }
    assert (Hd : deploy W folder opts (prelude W opts s)
                 = (Throw (Raised r), snd (delete_old client newVersion s1))).
    { unfold deploy, prepare. apply bind_throw.
      rewrite (bind_normal _ _ _ _ _ Hopen). apply bind_throw. by rewrite Ed. }
    rewrite (task_throw _ _ _ _ _ Hd), Hd, on_error_calls, Ed. auto.
  - intros Hdel. rewrite Ed in Hdel. simpl in Hdel.
    destruct (promise_all (fst dels)) as [vs|r] eqn:Hall; [clear Hdel|discriminate].
    rewrite Ed. simpl.
    destruct (upload_new_eq client newVersion vcls
                (advance s1 (snd dels)
                   (GetVcl newVersion
                    :: map (fun vcl => DeleteVcl newVersion (vcl_name vcl)) oldVcl) ls))
      as [ls' Eu].
    cbv zeta in Eu. simpl in Eu.
    set (ups := requests (fun vcl => updateVcl client newVersion
                            {| vcl_name := vcl_name vcl; vcl_content := vcl_content vcl |})
                  vcls (snd dels)) in *.
    split.
    + rewrite Eu. simpl. rewrite <- Hunit. split.
      * destruct (promise_all (fst ups)); [eauto|discriminate].
      * by intros [ws ->].
    + intros e He. rewrite Eu in He. simpl in He.
      destruct (promise_all (fst ups)) as [ws|r] eqn:Hallu; [discriminate|].
      injection He as <-.
      split.
      { apply promise_all_reject in Hallu as (p & Hp & Hr). eauto. }
      assert (Hd : deploy W folder opts (prelude W opts s)
                   = (Throw (Raised r),
                      snd (upload_new client newVersion vcls
                             (snd (delete_old client newVersion s1))))).
      { unfold deploy, prepare. apply bind_throw.
        rewrite (bind_normal _ _ _ _ _ Hopen).
        erewrite bind_normal; [|rewrite Ed; reflexivity].
        apply bind_throw. rewrite Ed. simpl. by rewrite Eu. }
      rewrite (task_throw _ _ _ _ _ Hd), Hd, on_error_calls, Ed. simpl.
      rewrite Eu. simpl. rewrite <- app_assoc. auto.
Qed.



(** C4 (as the code has it). When validation resolves with a status other
    than [ok], the generator throws a new error with a fixed message, whatever
    the response holds besides the status; the handler logs that error in
    its generic branch and exits; no activation has been requested. *)
Theorem C4_rejected_validation_fails_with_a_fixed_error
    folder opts (s : State R) client newVersion validationResponse s1 :
  prepare W folder opts (prelude W opts s)
    = (Normal (client, newVersion, validationResponse), s1) ->
  status validationResponse <> "ok" ->
  deploy W folder opts (prelude W opts s)
    = (Throw (NewError "VCL failed validation for some unknown reason"), s1)
  /\ task W folder opts s
     = (Exited "Bailing...",
        advance s1 (remote s1) []
          [Error (StackOf (NewError "VCL failed validation for some unknown reason"))])
  /\ exists cs, calls s1 = (calls s ++ cs)%list /\ forall v, ~ In (ActivateVersion v) cs.
Proof.
  intros Hprep Hstatus. apply String.eqb_neq in Hstatus.
  assert (Hd : deploy W folder opts (prelude W opts s)
               = (Throw (NewError "VCL failed validation for some unknown reason"), s1)).
  { unfold deploy. rewrite (bind_normal _ _ _ _ _ Hprep).
    by rewrite conclude_eq, Hstatus. }
  split; [exact Hd|]. split.
  - rewrite (task_throw _ _ _ _ _ Hd). by apply on_error_generic.
  - pose proof (prepare_quiet (fun _ => 0) (fun _ _ => constant_pointer _)
                  folder opts (prelude W opts s)) as [(cs & Hcs & Hno) _].
    rewrite Hprep, prelude_calls in Hcs. exists cs. split; [exact Hcs|].
    intros v. by apply no_activation_in.
Qed.

(** C10 (as the code has it). Unless the value caught is null or undefined,
    the promise returned by [task] is never rejected: a run whose generator
    ends normally is fulfilled, and for any other run the handler logs the
    error it caught and calls [exit]. *)
Theorem C10_task_settles_without_rejection folder opts (s : State R) :
  fst (deploy W folder opts (prelude W opts s)) <> Throw (Raised Nullish) ->
  (forall e, fst (task W folder opts s) <> Rejected e)
  /\ match fst (deploy W folder opts (prelude W opts s)) with
     | Normal _ => fst (task W folder opts s) = Fulfilled
     | Throw err =>
         fst (task W folder opts s) = Exited "Bailing..."
         /\ logs (snd (task W folder opts s))
            = (logs (snd (deploy W folder opts (prelude W opts s)))
               ++ [Error (StackOf err)])%list
     end.
Proof.
  intros Hnull. unfold task.
  destruct (deploy W folder opts (prelude W opts s)) as [[[]|err] s'] eqn:Hd;
    simpl in *; [split; [discriminate|reflexivity]|].
  rewrite on_error_generic.
  - simpl. split; [discriminate|]. auto.
  - by apply deploy_not_tagged in Hd.
  - congruence.
Qed.

End Steps.

(** ** The simulated service *)

Lemma sim_request_active {A} (act : Sim -> A * Sim) st :
  (forall st0, sim_active (snd (act st0)) = sim_active st0) ->
  sim_active (snd (sim_request act st)) = sim_active st.
Proof.
  intros H. unfold sim_request. destruct (sim_script st) as [|f script].
  - specialize (H st). by destruct (act st).
  - destruct (failure f); [reflexivity|].
    specialize (H (sim_with_script st script)). by destruct (act _).
Qed.

(** In the simulated service only activation moves the pointer. *)
Lemma sim_pointer vcls key id :
  pointer_written_by_activation_only sim_active (fastly (sim_world vcls) key id).
Proof.
  split; intros; simpl; by apply sim_request_active.
Qed.


Lemma sim_request_cases {A} (act : Sim -> A * Sim) st :
  (exists t r, sim_request act st = ({| latency := t; fate := Reject r |},
                                     sim_with_script st (tail (sim_script st))))
  \/ (exists t st0,
        sim_request act st = ({| latency := t; fate := Resolve (fst (act st0)) |},
                              snd (act st0))
        /\ sim_files st0 = sim_files st /\ sim_active st0 = sim_active st).
Proof.
  unfold sim_request. destruct (sim_script st) as [|f script].
  - right. exists 0%nat, st. by destruct (act st).
  - destruct (failure f) as [r|]; [left; eauto|].
    right. exists (delay f), (sim_with_script st script). by destruct (act _).
Qed.

(** The simulated service implements the file operations. *)
Lemma sim_store vcls key id :
  file_store sim_files_of sim_active (fastly (sim_world vcls) key id).
Proof.
  split; simpl.
  - intros v r l.
    destruct (sim_request_cases (sim_list v) r)
      as [(t & e & ->)|(t & st0 & -> & Hf & _)]; [discriminate|].
    simpl. intros [= <-]. unfold sim_files_of. rewrite Hf. split; [reflexivity|].
    intros n [c Hn]. rewrite map_map. simpl. apply in_map_iff. exists (n, c).
    split; [reflexivity|]. apply list_elem_of_In. by apply elem_of_map_to_list.
  - intros v n r.
    destruct (sim_request_cases (sim_delete v n) r)
      as [(t & e & ->)|(t & st0 & -> & Hf & _)]; [discriminate|].
    simpl. intros _. unfold sim_files_of. simpl. by rewrite lookup_insert_eq, Hf.
  - intros v f r.
    destruct (sim_request_cases (sim_update v f) r)
      as [(t & e & ->)|(t & st0 & -> & Hf & _)]; [discriminate|].
    simpl. intros _. unfold sim_files_of. simpl. by rewrite lookup_insert_eq, Hf.
  - intros v n r.
    destruct (sim_request_cases (sim_set_main v n) r)
      as [(t & e & ->)|(t & st0 & -> & Hf & _)]; simpl; [reflexivity|].
    unfold sim_files_of. simpl. by rewrite Hf.
  - intros v r.
    destruct (sim_request_cases (fun st => (sim_verdict st, st)) r)
      as [(t & e & ->)|(t & st0 & -> & Hf & _)]; simpl; [reflexivity|].
    unfold sim_files_of. by rewrite Hf.
  - intros v r.
    destruct (sim_request_cases (sim_activate v) r)
      as [(t & e & ->)|(t & st0 & -> & Hf & _)]; [discriminate|].
    simpl. intros _. unfold sim_files_of. simpl. by rewrite Hf.
Qed.

Lemma scenario_files_distinct folder vars penv vcls :
  loadVcl scenario_world folder vars penv = Resolve vcls -> NoDup (map vcl_name vcls).
Proof.
  intros [= <-]. by apply (bool_decide_unpack _).
Qed.

(** ** The scenarios of the spec, run through the model *)

(** Scenario A: the run of C1. *)
Lemma C1_witness :
  fst (task scenario_world "vcl" scenario_opts scenario_A) = Fulfilled
  /\ exists service cloneResponse oldVcl vcls,
       calls (snd (task scenario_world "vcl" scenario_opts scenario_A))
       = ([GetServices; CloneVersion (service_version service);
           GetVcl (number cloneResponse)]
          ++ map (fun vcl => DeleteVcl (number cloneResponse) (vcl_name vcl)) oldVcl
          ++ map (fun vcl => UpdateVcl (number cloneResponse) (vcl_name vcl)
                               (vcl_content vcl)) vcls
          ++ [SetVclAsMain (number cloneResponse) "main.vcl";
              ValidateVersion (number cloneResponse);
              ActivateVersion (number cloneResponse)])%list.
Proof.
  assert (H : fst (task scenario_world "vcl" scenario_opts scenario_A) = Fulfilled)
    by (vm_compute; reflexivity).
  split; [exact H|].
  destruct (C1_successful_run_call_sequence scenario_world "vcl" scenario_opts
              scenario_A) as [_ Hrun].
  destruct (Hrun H)
    as (key & sid & services & service & cr & old & vcls & vr & cs & Hc).
  cbv zeta in Hc. destruct Hc as (_ & _ & _ & _ & _ & Hcalls & Hcs & _).
  exists service, cr, old, vcls. rewrite Hcalls, Hcs. reflexivity.
Defined.

(** Scenario B: validation rejects the new version. *)
Lemma C2_witness :
  stops_before_activation
    (fst (prepare scenario_world "vcl" scenario_opts
            (prelude scenario_world scenario_opts (scenario_B ["unknown variable X"]))))
  /\ fst (task scenario_world "vcl" scenario_opts (scenario_B ["unknown variable X"]))
     <> Fulfilled
  /\ (exists cs,
        calls (snd (task scenario_world "vcl" scenario_opts
                      (scenario_B ["unknown variable X"]))) = cs
        /\ forall v, ~ In (ActivateVersion v) cs)
  /\ sim_active (remote (snd (task scenario_world "vcl" scenario_opts
                                (scenario_B ["unknown variable X"])))) = 5.
Proof.
  assert (H : stops_before_activation
                (fst (prepare scenario_world "vcl" scenario_opts
                        (prelude scenario_world scenario_opts
                           (scenario_B ["unknown variable X"])))))
    by (vm_compute; reflexivity).
  split; [exact H|].
  exact (C2_failed_run_never_activates scenario_world sim_active "vcl" scenario_opts
           (scenario_B ["unknown variable X"]) (sim_pointer _) H).
Defined.

Lemma C4_witness :
  status (verdict_rejected ["unknown variable X"]) <> "ok"
  /\ fst (deploy scenario_world "vcl" scenario_opts
            (prelude scenario_world scenario_opts (scenario_B ["unknown variable X"])))
     = Throw (NewError "VCL failed validation for some unknown reason")
  /\ fst (task scenario_world "vcl" scenario_opts (scenario_B ["unknown variable X"]))
     = Exited "Bailing...".
Proof.
  assert (Hs : status (verdict_rejected ["unknown variable X"]) <> "ok") by discriminate.
  split; [exact Hs|].
  assert (Hv : match fst (prepare scenario_world "vcl" scenario_opts
                            (prelude scenario_world scenario_opts
                               (scenario_B ["unknown variable X"]))) with
               | Normal (_, _, validationResponse) =>
                   validationResponse = verdict_rejected ["unknown variable X"]
               | Throw _ => False
               end)
    by (vm_compute; reflexivity).
  destruct (prepare scenario_world "vcl" scenario_opts
              (prelude scenario_world scenario_opts (scenario_B ["unknown variable X"])))
    as [[[[client newVersion] validationResponse]|e] s1] eqn:Hp;
    simpl in Hv; [subst validationResponse|contradiction].
  destruct (C4_rejected_validation_fails_with_a_fixed_error scenario_world "vcl"
              scenario_opts (scenario_B ["unknown variable X"]) _ _ _ _ Hp Hs)
    as (Hd & Ht & _).
  rewrite Hd, Ht. split; reflexivity.
Defined.

Lemma C5_witness :
  fst (task scenario_world "vcl" scenario_opts scenario_A) = Fulfilled
  /\ forall n c,
       sim_files_of (remote (snd (task scenario_world "vcl" scenario_opts scenario_A)))
         (sim_active (remote (snd (task scenario_world "vcl" scenario_opts scenario_A))))
         !! n = Some c
       <-> In {| vcl_name := n; vcl_content := c |} scenario_files.
Proof.
  assert (H : fst (task scenario_world "vcl" scenario_opts scenario_A) = Fulfilled)
    by (vm_compute; reflexivity).
  split; [exact H|].
  destruct (C5_activated_version_holds_exactly_the_new_files scenario_world
              sim_files_of sim_active "vcl" scenario_opts scenario_A
              (sim_store _) (scenario_files_distinct "vcl") H)
    as (sid & vcls & cleaned & Hload & _ & _ & Hfiles).
  injection Hload as <-. exact Hfiles.
Defined.

(** No service option: the run stops at the first check. *)
Lemma C6_witness :
  service no_service_opts = None
  /\ exists e,
       configuration_error e
       /\ fst (deploy scenario_world "vcl" no_service_opts
                 (prelude scenario_world no_service_opts scenario_A)) = Throw e
       /\ calls (snd (task scenario_world "vcl" no_service_opts scenario_A)) = []
       /\ fst (task scenario_world "vcl" no_service_opts scenario_A) = Exited "Bailing...".
Proof.
  split; [reflexivity|].
  destruct (C6_configuration_errors_precede_any_call scenario_world "vcl"
              no_service_opts scenario_A (or_intror (or_introl eq_refl)))
    as (e & He & Hd & Hc & _ & Ht & _).
  exists e. auto.
Defined.

(** A service id the remote end does not list. *)
Lemma C7_witness :
  (forall x, In x (sim_services (remote scenario_A)) ->
             JString (service_id x) <> JString "svc9")
  /\ fst (deploy scenario_world "vcl" unknown_service_opts
            (prelude scenario_world unknown_service_opts scenario_A))
     = Throw (TypeError "version")
  /\ calls (snd (task scenario_world "vcl" unknown_service_opts scenario_A))
     = [GetServices]
  /\ fst (task scenario_world "vcl" unknown_service_opts scenario_A) = Exited "Bailing...".
Proof.
  assert (Hnone : forall x, In x (sim_services (remote scenario_A)) ->
                            JString (service_id x) <> JString "svc9").
  { intros x [<-|[<-|[]]]; discriminate. }
  split; [exact Hnone|].
  destruct (C7_unknown_service_fails_on_version_read scenario_world "vcl"
              unknown_service_opts scenario_A "secret" (JString "svc9") scenario_files
              (sim_services (remote scenario_A)) eq_refl eq_refl eq_refl Hnone)
    as (Hd & Hc & Ht & _).
  auto.
Defined.

(** Scenario C on the delete step: the deletion of [main.vcl] is rejected. *)
Lemma C8_witness :
  fst (deploy scenario_world "vcl" scenario_opts
         (prelude scenario_world scenario_opts
            (scenario_failing 3 (Foreign "503 Service Unavailable"))))
  = Throw (Raised (Foreign "503 Service Unavailable"))
  /\ calls (snd (task scenario_world "vcl" scenario_opts
                   (scenario_failing 3 (Foreign "503 Service Unavailable"))))
     = [GetServices; CloneVersion 5; GetVcl 6;
        DeleteVcl 6 "main.vcl"; DeleteVcl 6 "legacy.vcl"].
Proof.
  set (s := scenario_failing 3 (Foreign "503 Service Unavailable")).
  assert (Hv : match fst (open_version scenario_world "vcl" scenario_opts
                            (prelude scenario_world scenario_opts s)) with
               | Normal (_, vcls, newVersion) => vcls = scenario_files /\ newVersion = 6
               | Throw _ => False
               end)
    by (vm_compute; split; reflexivity).
  assert (Hold : fate (fst (getVcl sim_client 6
                              (remote (snd (open_version scenario_world "vcl" scenario_opts
                                              (prelude scenario_world scenario_opts s))))))
                 = Resolve [ {| vcl_name := "main.vcl"; vcl_content := "old main" |};
                             {| vcl_name := "legacy.vcl"; vcl_content := "old legacy" |} ])
    by (vm_compute; reflexivity).
  assert (Hthrow : fst (delete_old sim_client 6
                          (snd (open_version scenario_world "vcl" scenario_opts
                                  (prelude scenario_world scenario_opts s))))
                   = Throw (Raised (Foreign "503 Service Unavailable")))
    by (vm_compute; reflexivity).
  assert (Hcalls : calls (snd (open_version scenario_world "vcl" scenario_opts
                                 (prelude scenario_world scenario_opts s)))
                   = [GetServices; CloneVersion 5])
    by (vm_compute; reflexivity).
  destruct (open_version scenario_world "vcl" scenario_opts
              (prelude scenario_world scenario_opts s))
    as [[[[client vcls] newVersion]|e] s1] eqn:Hopen;
    simpl in Hv, Hold, Hthrow, Hcalls; [|contradiction].
  destruct Hv as [-> ->].
  pose proof (open_version_normal _ _ _ _ _ _ _ _ Hopen)
    as (key & sid & services & service & cr & ls & _ & Hclient & _).
  simpl in Hclient. subst client.
  destruct (C8_fan_out_fails_with_a_reason_from_the_client scenario_world "vcl"
              scenario_opts s _ _ _ _ _ Hopen Hold) as (_ & Hfail & _).
  destruct (Hfail _ Hthrow) as (_ & Hd & Hc).
  split; [exact Hd|]. rewrite Hc, Hcalls. reflexivity.
Defined.


(** The clone request is rejected with an error object. *)
Lemma C10_witness :
  fst (deploy scenario_world "vcl" scenario_opts
         (prelude scenario_world scenario_opts
            (scenario_failing 1 (Foreign "ECONNRESET"))))
  <> Throw (Raised Nullish)
  /\ (forall e, fst (task scenario_world "vcl" scenario_opts
                       (scenario_failing 1 (Foreign "ECONNRESET"))) <> Rejected e)
  /\ fst (task scenario_world "vcl" scenario_opts
            (scenario_failing 1 (Foreign "ECONNRESET"))) = Exited "Bailing...".
Proof.
  assert (Hd : fst (deploy scenario_world "vcl" scenario_opts
                      (prelude scenario_world scenario_opts
                         (scenario_failing 1 (Foreign "ECONNRESET"))))
               = Throw (Raised (Foreign "ECONNRESET")))
    by (vm_compute; reflexivity).
  assert (H : fst (deploy scenario_world "vcl" scenario_opts
                     (prelude scenario_world scenario_opts
                        (scenario_failing 1 (Foreign "ECONNRESET"))))
              <> Throw (Raised Nullish))
    by (rewrite Hd; discriminate).
  split; [exact H|].
  destruct (C10_task_settles_without_rejection scenario_world "vcl" scenario_opts
              (scenario_failing 1 (Foreign "ECONNRESET")) H) as [Hnever Hend].
  rewrite Hd in Hend. destruct Hend as [Hexit _]. auto.
Defined.

(** ** Where the code departs from the claims *)

(** C3. The validation request of scenario A is rejected with a transport
    error.  The generator throws the reason as it came, not the tagged
    error built in the [catch] callback, and the handler logs it in its
    generic branch: the line [VCL Validation Error] is never logged. *)
Theorem C3_validation_transport_error_is_rethrown_raw :
  last (calls (snd (task scenario_world "vcl" scenario_opts
                      (scenario_failing 9 (Foreign "ETIMEDOUT")))))
  = Some (ValidateVersion 6)
  /\ fst (deploy scenario_world "vcl" scenario_opts
            (prelude scenario_world scenario_opts
               (scenario_failing 9 (Foreign "ETIMEDOUT"))))
     = Throw (Raised (Foreign "ETIMEDOUT"))
  /\ fst (deploy scenario_world "vcl" scenario_opts
            (prelude scenario_world scenario_opts
               (scenario_failing 9 (Foreign "ETIMEDOUT"))))
     <> Throw (ValidationError (Foreign "ETIMEDOUT"))
  /\ fst (task scenario_world "vcl" scenario_opts
            (scenario_failing 9 (Foreign "ETIMEDOUT"))) = Exited "Bailing..."
  /\ last (logs (snd (task scenario_world "vcl" scenario_opts
                        (scenario_failing 9 (Foreign "ETIMEDOUT")))))
     = Some (Error (StackOf (Raised (Foreign "ETIMEDOUT"))))
  /\ ~ In (Error (Text "VCL Validation Error"))
          (logs (snd (task scenario_world "vcl" scenario_opts
                        (scenario_failing 9 (Foreign "ETIMEDOUT"))))).
Proof.
  split; [vm_compute; reflexivity|].
  split; [vm_compute; reflexivity|].
  split; [vm_compute; discriminate|].
  split; [vm_compute; reflexivity|].
  split; [vm_compute; reflexivity|].
  vm_compute. intros H. repeat (destruct H as [H|H]; [discriminate|]). exact H.
Qed.

(** C4 as stated fails: two runs of scenario B that differ only in the
    diagnostics of the validation response throw the same error, end the same
    way and log the same lines, so the diagnostics cannot be read off what
    the run throws, returns or logs. *)
Lemma C4_counterexample :
  ~ exists payload_of : completion unit * outcome * list logentry -> list string,
      forall d,
        payload_of
          (fst (deploy scenario_world "vcl" scenario_opts
                  (prelude scenario_world scenario_opts (scenario_B d))),
           fst (task scenario_world "vcl" scenario_opts (scenario_B d)),
           logs (snd (task scenario_world "vcl" scenario_opts (scenario_B d)))) = d.
Proof.
  intros [payload_of H].
  pose proof (H ["unknown variable X"]) as H1.
  pose proof (H ["syntax error"]) as H2.
  vm_compute in H1, H2. rewrite H1 in H2. discriminate.
Qed.

(** C7 as stated fails: with a service id that the remote end does not
    list, what is thrown is the runtime's TypeError for the read of
    [version], not an error that the task builds for the condition. *)
Lemma C7_counterexample :
  (forall x, In x (sim_services (remote scenario_A)) ->
             JString (service_id x) <> JString "svc9")
  /\ fst (deploy scenario_world "vcl" unknown_service_opts
            (prelude scenario_world unknown_service_opts scenario_A))
     = Throw (TypeError "version")
  /\ ~ exists e,
         fst (deploy scenario_world "vcl" unknown_service_opts
                (prelude scenario_world unknown_service_opts scenario_A)) = Throw e
         /\ built_by_task e = true.
Proof.
  split; [intros x [<-|[<-|[]]]; discriminate|].
  split; [vm_compute; reflexivity|].
  intros (e & He & Hb). vm_compute in He. injection He as <-. discriminate.
Qed.

(** C8 as stated fails: in one run the deletion of [main.vcl] is rejected,
    in the other the deletion of [legacy.vcl], both with the same reason; the
    two runs throw the same value, end the same way and log the same lines,
    so the failure does not name the file. *)
Lemma C8_counterexample :
  calls (snd (task scenario_world "vcl" scenario_opts
                (scenario_failing 3 (Foreign "503 Service Unavailable")))) !! 3%nat
  = Some (DeleteVcl 6 "main.vcl")
  /\ calls (snd (task scenario_world "vcl" scenario_opts
                   (scenario_failing 4 (Foreign "503 Service Unavailable")))) !! 4%nat
     = Some (DeleteVcl 6 "legacy.vcl")
  /\ ~ exists name_of : completion unit * outcome * list logentry -> string,
         name_of
           (fst (deploy scenario_world "vcl" scenario_opts
                   (prelude scenario_world scenario_opts
                      (scenario_failing 3 (Foreign "503 Service Unavailable")))),
            fst (task scenario_world "vcl" scenario_opts
                   (scenario_failing 3 (Foreign "503 Service Unavailable"))),
            logs (snd (task scenario_world "vcl" scenario_opts
                         (scenario_failing 3 (Foreign "503 Service Unavailable")))))
         = "main.vcl"
         /\ name_of
              (fst (deploy scenario_world "vcl" scenario_opts
                      (prelude scenario_world scenario_opts
                         (scenario_failing 4 (Foreign "503 Service Unavailable")))),
               fst (task scenario_world "vcl" scenario_opts
                      (scenario_failing 4 (Foreign "503 Service Unavailable"))),
               logs (snd (task scenario_world "vcl" scenario_opts
                            (scenario_failing 4 (Foreign "503 Service Unavailable")))))
            = "legacy.vcl".
Proof.
  split; [vm_compute; reflexivity|].
  split; [vm_compute; reflexivity|].
  intros (name_of & H1 & H2).
  vm_compute in H1, H2. rewrite H1 in H2. discriminate.
Qed.

(** C10 as stated fails: the listing of the services is rejected with
    [undefined]; the handler raises on [err.type] and the promise returned
    by [task] is rejected. *)
Lemma C10_counterexample :
  fst (task scenario_world "vcl" scenario_opts (scenario_failing 0 Nullish))
  = Rejected (TypeError "type").
Proof. vm_compute. reflexivity. Qed.

(** * The rest of [deploy.js] *)

(** ** [list]: the fields of a comma-separated option *)

Lemma split_at_not_nil sep val : split_at sep val <> [].
Proof.
  destruct val as [|c rest]; simpl; [discriminate|].
  destruct (Ascii.eqb c sep); [discriminate|].
  destruct (split_at sep rest); discriminate.
Qed.

Lemma concat_cons_cons sep x y l :
  String.concat sep (x :: y :: l) = x +:+ sep +:+ String.concat sep (y :: l).
Proof. reflexivity. Qed.

Lemma split_at_join sep val :
  String.concat (String sep EmptyString) (split_at sep val) = val.
Proof.
  induction val as [|c rest IH]; [reflexivity|]. simpl split_at.
  destruct (Ascii.eqb c sep) eqn:Hc.
  - apply Ascii.eqb_eq in Hc as ->.
    destruct (split_at sep rest) as [|f fs] eqn:Hs; [by apply split_at_not_nil in Hs|].
    rewrite concat_cons_cons, IH. reflexivity.
  - destruct (split_at sep rest) as [|f fs] eqn:Hs; [by apply split_at_not_nil in Hs|].
    destruct fs as [|g fs].
    + simpl in *. by rewrite IH.
    + rewrite concat_cons_cons. rewrite concat_cons_cons in IH. rewrite <- IH. reflexivity.
Qed.

Lemma split_at_fields_free sep val field :
  In field (split_at sep val) -> holds sep field = false.
Proof.
  revert field. induction val as [|c rest IH]; intros field; simpl.
  - intros [<-|[]]. reflexivity.
  - destruct (Ascii.eqb c sep) eqn:Hc.
    + intros [<-|Hin]; [reflexivity|auto].
    + destruct (split_at sep rest) as [|f fs] eqn:Hs.
      * intros [<-|[]]. simpl. by rewrite Hc.
      * intros [<-|Hin]; [|apply IH; by right].
        simpl. rewrite Hc. apply IH. by left.
Qed.

Lemma split_at_length sep val :
  length (split_at sep val) = S (occurrences sep val).
Proof.
  induction val as [|c rest IH]; [reflexivity|]. simpl.
  destruct (Ascii.eqb c sep); simpl; [by rewrite IH|].
  destruct (split_at sep rest) as [|f fs] eqn:Hs; [by apply split_at_not_nil in Hs|].
  simpl in *. exact IH.
Qed.

Lemma split_at_free sep field :
  holds sep field = false -> split_at sep field = [field].
Proof.
  induction field as [|c rest IH]; [reflexivity|]. simpl.
  destruct (Ascii.eqb c sep); [discriminate|]. simpl. intros H. by rewrite IH.
Qed.

Lemma split_at_app sep field rest :
  holds sep field = false ->
  split_at sep (field +:+ String sep rest) = field :: split_at sep rest.
Proof.
  induction field as [|c f IH]; simpl.
  - intros _. by rewrite Ascii.eqb_refl.
  - destruct (Ascii.eqb c sep); [discriminate|]. simpl. intros H. by rewrite IH.
Qed.

(** X1. [list(val)] cuts [val] at its commas and loses nothing: joining the
    fields with commas gives [val] back, there is one field more than there
    are commas in [val] (so at least one, also for the empty string), and no
    field holds a comma. *)
Theorem X1_list_fields_of_the_option val :
  String.concat "," (list_values val) = val
  /\ length (list_values val) = S (occurrences comma val)
  /\ forall field, In field (list_values val) -> holds comma field = false.
Proof.
  split; [apply (split_at_join comma)|].
  split; [apply split_at_length|]. apply split_at_fields_free.
Qed.

(** X2. [list] undoes a join: for at least one field, none of which holds
    a comma, the fields of their comma-separated string are these fields. *)
Theorem X2_list_of_joined_fields fields :
  fields <> [] ->
  (forall field, In field fields -> holds comma field = false) ->
  list_values (String.concat "," fields) = fields.
Proof.
  unfold list_values. induction fields as [|f fs IH]; [done|]. intros _ Hfree.
  destruct fs as [|g fs].
  - simpl. apply split_at_free. apply Hfree. by left.
  - rewrite concat_cons_cons.
    change ("," +:+ String.concat "," (g :: fs))
      with (String comma (String.concat "," (g :: fs))).
    rewrite split_at_app by (apply Hfree; by left).
    f_equal. apply IH; [discriminate|]. intros field Hin. apply Hfree. by right.
Qed.

Lemma X2_witness :
  ["AUTH_KEY"; ""; "SERVICEID"] <> []
  /\ list_values "AUTH_KEY,,SERVICEID" = ["AUTH_KEY"; ""; "SERVICEID"].
Proof.
  assert (Hne : ["AUTH_KEY"; ""; "SERVICEID"] <> []) by discriminate.
  split; [exact Hne|].
  apply (X2_list_of_joined_fields ["AUTH_KEY"; ""; "SERVICEID"] Hne).
  intros field [<-|[<-|[<-|[]]]]; reflexivity.
Defined.

(** ** What a run leaves behind besides its calls *)

Section Chain.

Context {R : Type} (W : Collaborators R).

Lemma bind_assoc {A B C} (m : M R A) (k1 : A -> M R B) (k2 : B -> M R C) s :
  bind (bind m k1) k2 s = bind m (fun a => bind (k1 a) k2) s.
Proof. unfold bind. by destruct (m s) as [[a|e] s1]. Qed.

(** A relation between the states of a run that every progress line and
    every request respects is respected by the steps of the generator. *)
Variable Rel : State R -> State R -> Prop.
Hypothesis Rel_refl : forall s, Rel s s.
Hypothesis Rel_trans : forall s1 s2 s3, Rel s1 s2 -> Rel s2 s3 -> Rel s1 s3.
Hypothesis Rel_log : forall l s, routine l = true -> Rel s (snd (log l s)).
Hypothesis Rel_issue :
  forall A c (op : R -> promise A * R) s, Rel s (snd (issue c op s)).

Lemma rel_bind {A B} (m : M R A) (k : A -> M R B) s :
  Rel s (snd (m s)) ->
  (forall a s1, m s = (Normal a, s1) -> Rel s1 (snd (k a s1))) ->
  Rel s (snd (bind m k s)).
Proof.
  unfold bind. destruct (m s) as [[a|e] s1]; simpl; [|auto].
  intros H1 H2. eapply Rel_trans; [exact H1|]. by apply H2.
Qed.

Lemma rel_yield {A} (p : settled A) s : Rel s (snd (yield p s)).
Proof. destruct p; apply Rel_refl. Qed.

Lemma rel_map_effect {A B} (f : A -> M R B) xs s :
  (forall x s', Rel s' (snd (f x s'))) -> Rel s (snd (map_effect f xs s)).
Proof.
  intros Hf. revert s. induction xs as [|x xs IH]; intros s; simpl; [apply Rel_refl|].
  apply rel_bind; [apply Hf|]. intros b s1 _.
  apply rel_bind; [apply IH|]. intros bs s2 _. apply Rel_refl.
Qed.

Lemma current_service_rel client sid s :
  Rel s (snd (current_service client sid s)).
Proof.
  unfold current_service. apply rel_bind; [apply Rel_issue|]. intros p s1 _.
  apply rel_bind; [apply rel_yield|]. intros services s2 _.
  destruct (List.find _ services); apply Rel_refl.
Qed.

Lemma clone_rel client service s : Rel s (snd (clone client service s)).
Proof.
  unfold clone. apply rel_bind; [by apply Rel_log|]. intros _ s1 _.
  apply rel_bind; [apply Rel_issue|]. intros p s2 _.
  apply rel_bind; [apply rel_yield|]. intros cloneResponse s3 _.
  apply rel_bind; [by apply Rel_log|]. intros _ s4 _.
  apply rel_bind; [by apply Rel_log|]. intros _ s5 _. apply Rel_refl.
Qed.

Lemma delete_old_rel client newVersion s :
  Rel s (snd (delete_old client newVersion s)).
Proof.
  unfold delete_old. apply rel_bind; [apply Rel_issue|]. intros p s1 _.
  apply rel_bind; [apply rel_yield|]. intros oldVcl s2 _.
  apply rel_bind.
  { apply rel_map_effect. intros vcl s'.
    apply rel_bind; [by apply Rel_log|]. intros _ s'' _. apply Rel_issue. }
  intros ps s3 _. apply rel_bind; [apply rel_yield|]. intros _ s4 _.
  by apply Rel_log.
Qed.

Lemma upload_new_rel client newVersion vcls s :
  Rel s (snd (upload_new client newVersion vcls s)).
Proof.
  unfold upload_new. apply rel_bind; [by apply Rel_log|]. intros _ s1 _.
  apply rel_bind.
  { apply rel_map_effect. intros vcl s'.
    apply rel_bind; [by apply Rel_log|]. intros _ s'' _. apply Rel_issue. }
  intros ps s2 _. apply rel_bind; [apply rel_yield|]. intros _ s3 _.
  apply Rel_refl.
Qed.

Lemma set_main_rel client newVersion options s :
  Rel s (snd (set_main client newVersion options s)).
Proof.
  unfold set_main. apply rel_bind; [by apply Rel_log|]. intros _ s1 _.
  apply rel_bind; [apply Rel_issue|]. intros p s2 _. apply rel_yield.
Qed.

Lemma validate_rel client newVersion s :
  Rel s (snd (validate client newVersion s)).
Proof.
  unfold validate. apply rel_bind; [by apply Rel_log|]. intros _ s1 _.
  apply rel_bind; [apply Rel_issue|]. intros p s2 _.
  destruct (fate p); apply Rel_refl.
Qed.

(** From the loaded files to the validation response. *)
Lemma after_load_rel opts key sid vcls s :
  Rel s
    (snd (bind (bind (current_service (fastly W key (encodeURIComponent W (to_text sid))) sid)
                  (fun service =>
                     bind (clone (fastly W key (encodeURIComponent W (to_text sid))) service)
                       (fun newVersion =>
                          ret (fastly W key (encodeURIComponent W (to_text sid)), vcls,
                             newVersion))))
            (fun opened =>
               let '(client, vcls, newVersion) := opened in
               bind (delete_old client newVersion) (fun _ =>
               bind (upload_new client newVersion vcls) (fun _ =>
               bind (set_main client newVersion (assign_defaults opts)) (fun _ =>
               bind (validate client newVersion) (fun validationResponse =>
               ret (client, newVersion, validationResponse)))))) s)).
Proof.
  apply rel_bind.
  { apply rel_bind; [apply current_service_rel|]. intros service s1 _.
    apply rel_bind; [apply clone_rel|]. intros nv s2 _. apply Rel_refl. }
  intros [[client vcls'] nv] s1 _.
  apply rel_bind; [apply delete_old_rel|]. intros _ s2 _.
  apply rel_bind; [apply upload_new_rel|]. intros _ s3 _.
  apply rel_bind; [apply set_main_rel|]. intros _ s4 _.
  apply rel_bind; [apply validate_rel|]. intros vr s5 _. apply Rel_refl.
Qed.

(** How [prepare] goes on once the checks have passed. *)
Lemma prepare_after_configure folder opts key sid (s : State R) :
  configure opts s = (Normal (key, sid), s) ->
  prepare W folder opts s
  = match loadVcl W folder (options_vars (assign_defaults opts))
            (load_env (assign_defaults opts) (to_text sid) (process_env s)) with
    | Reject r =>
        (Throw (Raised r), with_env s (load_env (assign_defaults opts) (to_text sid) (process_env s)))
    | Resolve vcls =>
        bind (bind (current_service (fastly W key (encodeURIComponent W (to_text sid))) sid)
                (fun service =>
                   bind (clone (fastly W key (encodeURIComponent W (to_text sid))) service)
                     (fun newVersion =>
                        ret (fastly W key (encodeURIComponent W (to_text sid)), vcls,
                             newVersion))))
          (fun opened =>
             let '(client, vcls, newVersion) := opened in
             bind (delete_old client newVersion) (fun _ =>
             bind (upload_new client newVersion vcls) (fun _ =>
             bind (set_main client newVersion (assign_defaults opts)) (fun _ =>
             bind (validate client newVersion) (fun validationResponse =>
             ret (client, newVersion, validationResponse))))))
          (with_env s (load_env (assign_defaults opts) (to_text sid) (process_env s)))
    end.
Proof.
  intros Hconf. unfold prepare, open_version.
  rewrite !bind_assoc. rewrite (bind_normal _ _ _ _ _ Hconf). simpl fst. simpl snd.
  rewrite bind_assoc. unfold bind at 1. rewrite load_eq.
  destruct (loadVcl W folder _ _) as [vcls|r]; reflexivity.
Qed.

Lemma prepare_configure_throws folder opts e (s : State R) :
  configure opts s = (Throw e, s) -> prepare W folder opts s = (Throw e, s).
Proof.
  intros Hconf. unfold prepare, open_version. do 2 apply bind_throw. exact Hconf.
Qed.

End Chain.

Section Effects.

Context {R : Type} (W : Collaborators R).

Lemma chatty_refl (s : State R) : chatty s s.
Proof. exists []. by rewrite app_nil_r. Qed.

Lemma chatty_trans (s1 s2 s3 : State R) : chatty s1 s2 -> chatty s2 s3 -> chatty s1 s3.
Proof.
  intros (l1 & E1 & F1) (l2 & E2 & F2). exists (l1 ++ l2)%list.
  by rewrite E2, E1, app_assoc, forallb_app, F1, F2.
Qed.

Lemma chatty_log l (s : State R) : routine l = true -> chatty s (snd (log l s)).
Proof. intros H. exists [l]. simpl. by rewrite H. Qed.

Lemma chatty_issue A c (op : R -> promise A * R) (s : State R) :
  chatty s (snd (issue c op s)).
Proof. rewrite issue_eq. exists []. simpl. by rewrite app_nil_r. Qed.



(** Up to the validation only progress lines are logged. *)
Lemma prepare_chatty folder opts (s : State R) :
  chatty s (snd (prepare W folder opts s)).
Proof.
  destruct (configure_cases opts s) as [(e & _ & Hc)|(key & sid & Hc & _)].
  - rewrite (prepare_configure_throws W folder opts e s Hc). apply chatty_refl.
  - rewrite (prepare_after_configure W folder opts key sid s Hc).
    destruct (loadVcl W folder _ _) as [vcls|r].
    + eapply chatty_trans; [|apply (after_load_rel W chatty chatty_refl chatty_trans
                                      chatty_log chatty_issue)].
      exists []. simpl. by rewrite app_nil_r.
    + exists []. simpl. by rewrite app_nil_r.
Qed.




(** The lines of the generator: progress lines, closed by the success
    line and the art exactly when it runs to its end. *)
Lemma deploy_logs folder opts (s : State R) :
  exists ls,
    forallb routine ls = true
    /\ logs (snd (deploy W folder opts s))
       = (logs s ++ ls
          ++ match fst (deploy W folder opts s) with
             | Normal _ =>
                 [Success "Your VCL has been deployed.  Have a nice cup of tea and relax";
                  Art "tea" "success"]
             | Throw _ => []
             end)%list.
Proof.
  destruct (prepare_chatty folder opts s) as (ls & Hls & Hr).
  unfold deploy, bind.
  destruct (prepare W folder opts s) as [[[[client nv] vr]|e] s1]; simpl in Hls.
  - rewrite conclude_eq. destruct (String.eqb _ _).
    + exists (ls ++ [Info ("Version  " +:+ pretty nv +:+ " looks ok")])%list.
      split; [by rewrite forallb_app, Hr|].
      destruct (fate _) as [[]|r]; simpl; rewrite Hls, <- ?app_assoc; simpl;
        by rewrite ?app_nil_r.
    + exists ls. simpl. by rewrite Hls, app_nil_r.
  - exists ls. simpl. by rewrite Hls, app_nil_r.
Qed.

(** X3. The lines a run hands to the logger are progress lines (verbose
    and info), closed according to how the run ends: by the success line
    and the art if and only if the run is fulfilled; by exactly one error
    line, holding the stack of what the generator threw, when the handler
    exits; by nothing at all when the handler itself fails on a null or
    undefined reason. *)
Theorem X3_log_lines_tell_the_ending folder opts (s : State R) :
  exists ls,
    forallb routine ls = true
    /\ match fst (task W folder opts s) with
       | Fulfilled =>
           logs (snd (task W folder opts s))
           = (logs s ++ ls
              ++ [Success "Your VCL has been deployed.  Have a nice cup of tea and relax";
                  Art "tea" "success"])%list
       | Exited msg =>
           msg = "Bailing..."
           /\ exists err,
                fst (deploy W folder opts (prelude W opts s)) = Throw err
                /\ logs (snd (task W folder opts s))
                   = (logs s ++ ls ++ [Error (StackOf err)])%list
       | Rejected e =>
           e = TypeError "type"
           /\ fst (deploy W folder opts (prelude W opts s)) = Throw (Raised Nullish)
           /\ logs (snd (task W folder opts s)) = (logs s ++ ls)%list
       end.
Proof.
  destruct (deploy_logs folder opts (prelude W opts s)) as (ls & Hr & Hls).
  rewrite prelude_logs in Hls. exists ls. split; [exact Hr|].
  unfold task.
  destruct (deploy W folder opts (prelude W opts s)) as [[[]|err] s'] eqn:Hd;
    simpl in Hls; [exact Hls|].
  rewrite app_nil_r in Hls.
  assert (err = Raised Nullish \/ err <> Raised Nullish) as [->|Hnull]
    by (destruct err as [| | |[]]; auto; right; discriminate).
  - simpl. auto.
  - rewrite on_error_generic; [|by apply deploy_not_tagged in Hd|exact Hnull].
    simpl. split; [reflexivity|]. exists err. split; [reflexivity|].
    by rewrite Hls, app_assoc.
Qed.


End Effects.

(** ** Where a run can stop *)

Section Stops.

Context {R : Type} (W : Collaborators R).




End Stops.

(** ** What the generator throws *)

Section Errors.

Context {R : Type} (W : Collaborators R).

(** A service option that is set resolves to a service id that is set. *)
Lemma resolveServiceId_truthy penv opts :
  truthy (service opts) = true -> truthy_value (resolveServiceId penv opts) = true.
Proof.
  intros H. unfold resolveServiceId, js_or.
  destruct (truthy_value (env_index penv (service opts))) eqn:He; [exact He|].
  by destruct (service opts).
Qed.

(** The third check of lines 33-46 never fires. *)
Lemma configure_throws_own opts (s s' : State R) e :
  configure opts s = (Throw e, s') ->
  e = NewError "the service parameter is required set to the service id of a environment variable name"
  \/ e = NewError "FASTLY_APIKEY not found".
Proof.
  unfold configure, bind, get_env, throw, ret. simpl.
  destruct (truthy (service opts)) eqn:Hs; simpl; [|intros [= <- _]; auto].
  destruct (truthy (process_env s !! "FASTLY_APIKEY")); simpl; [|intros [= <- _]; auto].
  rewrite (resolveServiceId_truthy _ _ Hs). discriminate.
Qed.

Lemma open_version_throws_known folder opts (s s' : State R) e :
  open_version W folder opts s = (Throw e, s') ->
  own_error e \/ exists r, e = Raised r.
Proof.
  unfold open_version, own_error. intros H.
  apply bind_throw_inv in H as [H|([key sid] & s0 & _ & H)].
  { apply configure_throws_own in H as [->| ->]; auto. }
  simpl in H. apply bind_throw_inv in H as [H|(vcls & s1 & _ & H)].
  { rewrite load_eq in H. destruct (loadVcl _ _ _ _); [discriminate|].
    injection H as <- _. eauto. }
  apply bind_throw_inv in H as [H|(service & s2 & _ & H)].
  { rewrite current_service_eq in H. destruct (fate _) as [services|].
    - destruct (List.find _ _); [discriminate|]. injection H as <- _. auto 6.
    - injection H as <- _. eauto. }
  apply bind_throw_inv in H as [H|(nv & s3 & _ & H)]; [|discriminate].
  match type of H with clone ?c ?sv ?st = _ => destruct (clone_eq c sv st) as [ls E] end.
  rewrite E in H. destruct (fate _); [discriminate|]. injection H as <- _. eauto.
Qed.

(** X6. What the generator throws is one of four errors of its own (the
    missing service option, the missing API key, the TypeError of the read of
    [version], the failed validation) or a value that a collaborator threw or
    rejected with, unchanged.  In particular the check that throws
    [No service ] never fires, and the tagged validation error is never
    thrown. *)
Theorem X6_what_the_generator_throws folder opts (s : State R) e :
  fst (deploy W folder opts s) = Throw e ->
  (own_error e \/ exists r, e = Raised r)
  /\ e <> NewError "No service "
  /\ is_tagged e = false.
Proof.
  intros Hd.
  destruct (deploy W folder opts s) as [res s'] eqn:H. simpl in Hd. subst res.
  assert (Hk : own_error e \/ exists r, e = Raised r).
  { unfold deploy, prepare in H.
    apply bind_throw_inv in H as [H|([[client nv] vr] & s5 & _ & H)].
    - apply bind_throw_inv in H as [H|([[client vcls] nv] & s1 & _ & H)].
      { by apply open_version_throws_known in H. }
      right.
      apply bind_throw_inv in H as [H|(_ & s2 & _ & H)].
      { destruct (delete_old_eq client nv s1) as [ls E]. rewrite E in H.
        destruct (fate _); [cbv zeta in H; destruct (promise_all _); [discriminate|]|];
          injection H as <- _; eauto. }
      apply bind_throw_inv in H as [H|(_ & s3 & _ & H)].
      { destruct (upload_new_eq client nv vcls s2) as [ls E]. cbv zeta in E.
        rewrite E in H. destruct (promise_all _); [discriminate|].
        injection H as <- _. eauto. }
      apply bind_throw_inv in H as [H|(_ & s4 & _ & H)].
      { destruct (set_main_eq client nv (assign_defaults opts) s3) as [ls E].
        rewrite E in H. destruct (fate _); [discriminate|]. injection H as <- _. eauto. }
      apply bind_throw_inv in H as [H|(vr & s5 & _ & H)]; [|discriminate].
      destruct (validate_eq client nv s4) as [ls E].
      rewrite E in H. destruct (fate _); [discriminate|]. injection H as <- _. eauto.
    - rewrite conclude_eq in H. destruct (String.eqb _ _).
      + destruct (fate _); [discriminate|]. injection H as <- _. eauto.
      + injection H as <- _. left. unfold own_error. auto 6. }
  split; [exact Hk|].
  destruct Hk as [[->|[->|[->| ->]]]|[r ->]]; split; done.
Qed.

(** ** The command *)

(** X7. The command completes exactly when a folder is given and the
    generator runs to its end.  In every other case it ends in [exit]:
    without a folder, with the request for one and nothing else done (no
    [.env] loaded, no call, no line logged); when the handler of [task]
    failed on a null or undefined reason, with the TypeError that
    [.catch(exit)] received; otherwise with [Bailing...]. *)
Theorem X7_how_the_command_ends folder opts (s : State R) :
  (fst (action W folder opts s) = Completed
   <-> truthy folder = true
       /\ exists u, fst (deploy W (default "" folder) opts (prelude W opts s)) = Normal u)
  /\ (truthy folder = false ->
      action W folder opts s
      = (ProcessExit (Message "Please provide a folder where the .vcl is located"), s))
  /\ (truthy folder = true ->
      snd (action W folder opts s) = snd (task W (default "" folder) opts s)
      /\ forall err,
           fst (deploy W (default "" folder) opts (prelude W opts s)) = Throw err ->
           fst (action W folder opts s)
           = match err with
             | Raised Nullish => ProcessExit (Caught (TypeError "type"))
             | _ => ProcessExit (Message "Bailing...")
             end).
Proof.
  unfold action, task.
  destruct (truthy folder) eqn:Hf.
  - destruct (deploy W (default "" folder) opts (prelude W opts s)) as [[u|err] s'] eqn:Hd;
      simpl.
    + split; [split; eauto|]. split; [discriminate|]. intros _. split; [reflexivity|].
      discriminate.
    + split.
      { split.
        - by destruct err as [m|v|p|[|d]].
        - intros [_ [u Hu]]. discriminate. }
      split; [discriminate|]. intros _. split.
      { by destruct err as [m|v|p|[|d]]. }
      intros err' [= <-]. by destruct err as [m|v|p|[|d]].
  - split; [split; [discriminate|by intros [? _]]|]. split; [reflexivity|discriminate].
Qed.

End Errors.

(** ** Which service, which rejection *)

Lemma find_first {A} (f : A -> bool) l x :
  List.find f l = Some x ->
  exists before after,
    l = (before ++ x :: after)%list /\ f x = true
    /\ forall y, In y before -> f y = false.
Proof.
  induction l as [|a l IH]; simpl; [discriminate|].
  destruct (f a) eqn:Ha.
  - intros [= <-]. exists [], l. by repeat split.
  - intros H. destruct (IH H) as (before & after & -> & Hx & Hb).
    exists (a :: before), after. repeat split; [exact Hx|].
    intros y [<-|Hy]; auto.
Qed.

(** X8. The version that is cloned is the active version of the first
    listed service whose id is the resolved one: the services listed before
    it have another id, and a later service with the same id is not
    considered. *)
Theorem X8_first_listed_service_is_cloned {R} (W : Collaborators R)
    folder opts (s : State R) client vcls newVersion s1 :
  open_version W folder opts s = (Normal (client, vcls, newVersion), s1) ->
  exists key sid services before service after,
    configure opts s = (Normal (key, JString sid), s)
    /\ fate (fst (getServices client (remote s))) = Resolve services
    /\ services = (before ++ service :: after)%list
    /\ service_id service = sid
    /\ (forall x, In x before -> service_id x <> sid)
    /\ calls s1 = (calls s ++ [GetServices; CloneVersion (service_version service)])%list.
Proof.
  intros Hopen.
  apply open_version_normal in Hopen
    as (key & sid & services & service & cr & ls & Hconf & -> & _ & Hget & Hfind & _ & _ & ->).
  apply find_first in Hfind as (before & after & -> & Hid & Hbefore).
  apply String.eqb_eq in Hid.
  exists key, sid, (before ++ service :: after)%list, before, service, after.
  repeat split; try done.
  intros x Hx. apply String.eqb_neq. by apply Hbefore.
Qed.

Lemma X8_witness :
  exists client vcls newVersion s1,
    open_version scenario_world "vcl" scenario_opts scenario_twins
      = (Normal (client, vcls, newVersion), s1)
    /\ calls s1 = [GetServices; CloneVersion 5].
Proof.
  assert (Hcalls : calls (snd (open_version scenario_world "vcl" scenario_opts
                                 scenario_twins)) = [GetServices; CloneVersion 5])
    by (vm_compute; reflexivity).
  assert (Hv : match fst (open_version scenario_world "vcl" scenario_opts
                            scenario_twins) with
               | Normal _ => True
               | Throw _ => False
               end)
    by (vm_compute; exact I).
  destruct (open_version scenario_world "vcl" scenario_opts scenario_twins)
    as [[[[client vcls] newVersion]|e] s1] eqn:Hopen; [clear Hv|contradiction].
  simpl in Hcalls.
  destruct (X8_first_listed_service_is_cloned scenario_world "vcl" scenario_opts
              scenario_twins client vcls newVersion s1 Hopen)
    as (key & sid & services & before & service & after & _ & _ & _ & _ & _ & Hc).
  exists client, vcls, newVersion, s1. split; [reflexivity|exact Hcalls].
Defined.

Lemma first_rejection_earliest {A} (ps : list (promise A)) t r :
  first_rejection ps = Some (t, r) ->
  forall q r', In q ps -> fate q = Reject r' -> (t <= latency q)%nat.
Proof.
  revert t r. induction ps as [|p ps IH]; intros t r; simpl; [discriminate|].
  destruct (fate p) as [a|r0] eqn:Hp.
  - intros H q r' [<-|Hq] Hf; [congruence|]. eapply IH; eauto.
  - destruct (first_rejection ps) as [[t' r1]|] eqn:Hrest.
    + destruct (t' <? latency p)%nat eqn:Hlt; intros [= <- <-] q r' [<-|Hq] Hf.
      * apply Nat.ltb_lt in Hlt. lia.
      * eapply IH; eauto.
      * lia.
      * apply Nat.ltb_ge in Hlt. pose proof (IH _ _ eq_refl q r' Hq Hf). lia.
    + intros [= <- <-] q r' [<-|Hq] Hf; [lia|].
      destruct (proj1 (first_rejection_none ps) Hrest q Hq) as [a Ha]. congruence.
Qed.

(** A rejected [Promise.all] carries the reason of a promise that was
    rejected no later than any other. *)
Lemma promise_all_earliest {A} (ps : list (promise A)) r :
  promise_all ps = Reject r ->
  exists p, In p ps /\ fate p = Reject r /\ earliest_rejection p ps.
Proof.
  unfold promise_all. destruct (first_rejection ps) as [[t r']|] eqn:H; [|discriminate].
  intros [= <-]. destruct (first_rejection_in _ _ _ H) as (p & Hp & Hf & <-).
  exists p. split; [exact Hp|]. split; [exact Hf|].
  intros q r0. by apply (first_rejection_earliest ps _ _ H).
Qed.

(** X9. When several deletions, or several uploads, are rejected, the
    reason the step throws is that of a request that was rejected first:
    none of the other rejections of the step came sooner. *)
Theorem X9_first_rejection_is_thrown {R} client newVersion vcls (s : State R) :
  (forall oldVcl e,
     fate (fst (getVcl client newVersion (remote s))) = Resolve oldVcl ->
     fst (delete_old client newVersion s) = Throw e ->
     exists p r,
       In p (fst (requests (fun vcl => deleteVcl client newVersion (vcl_name vcl))
                    oldVcl (snd (getVcl client newVersion (remote s)))))
       /\ fate p = Reject r /\ e = Raised r
       /\ earliest_rejection p
            (fst (requests (fun vcl => deleteVcl client newVersion (vcl_name vcl))
                    oldVcl (snd (getVcl client newVersion (remote s))))))
  /\ (forall e,
        fst (upload_new client newVersion vcls s) = Throw e ->
        exists p r,
          In p (fst (requests (fun vcl => updateVcl client newVersion
                                 {| vcl_name := vcl_name vcl;
                                    vcl_content := vcl_content vcl |})
                       vcls (remote s)))
          /\ fate p = Reject r /\ e = Raised r
          /\ earliest_rejection p
               (fst (requests (fun vcl => updateVcl client newVersion
                                 {| vcl_name := vcl_name vcl;
                                    vcl_content := vcl_content vcl |})
                       vcls (remote s)))).
Proof.
  split.
  - intros oldVcl e Hold. destruct (delete_old_eq client newVersion s) as [ls ->].
    rewrite Hold. cbv zeta. simpl.
    destruct (promise_all _) as [vs|r] eqn:Hall; [discriminate|]. intros [= <-].
    apply promise_all_earliest in Hall as (p & Hp & Hf & He). eauto 6.
  - intros e. destruct (upload_new_eq client newVersion vcls s) as [ls E].
    cbv zeta in E. rewrite E. simpl.
    destruct (promise_all _) as [vs|r] eqn:Hall; [discriminate|]. intros [= <-].
    apply promise_all_earliest in Hall as (p & Hp & Hf & He). eauto 6.
Qed.

(** ** The properties above on the scenarios *)

(** The clone request is rejected: the generator throws the reason. *)
Lemma X6_witness :
  fst (deploy scenario_world "vcl" scenario_opts
         (scenario_failing 1 (Foreign "ECONNRESET")))
  = Throw (Raised (Foreign "ECONNRESET"))
  /\ (own_error (Raised (Foreign "ECONNRESET"))
      \/ exists r, Raised (Foreign "ECONNRESET") = Raised r)
  /\ Raised (Foreign "ECONNRESET") <> NewError "No service "
  /\ is_tagged (Raised (Foreign "ECONNRESET")) = false.
Proof.
  assert (H : fst (deploy scenario_world "vcl" scenario_opts
                     (scenario_failing 1 (Foreign "ECONNRESET")))
              = Throw (Raised (Foreign "ECONNRESET")))
    by (vm_compute; reflexivity).
  split; [exact H|].
  exact (X6_what_the_generator_throws scenario_world "vcl" scenario_opts
           (scenario_failing 1 (Foreign "ECONNRESET")) _ H).
Defined.


(** Both deletions are rejected, the second one sooner: its reason is the
    one thrown. *)
Lemma X9_witness :
  fst (delete_old sim_client 6
         (snd (open_version scenario_world "vcl" scenario_opts scenario_race)))
  = Throw (Raised (Foreign "quick failure"))
  /\ exists p,
       fate p = Reject (Foreign "quick failure")
       /\ earliest_rejection p
            (fst (requests (fun vcl => deleteVcl sim_client 6 (vcl_name vcl))
                    [ {| vcl_name := "main.vcl"; vcl_content := "old main" |};
                      {| vcl_name := "legacy.vcl"; vcl_content := "old legacy" |} ]
                    (snd (getVcl sim_client 6
                            (remote (snd (open_version scenario_world "vcl"
                                            scenario_opts scenario_race))))))).
Proof.
  assert (Hold : fate (fst (getVcl sim_client 6
                              (remote (snd (open_version scenario_world "vcl"
                                              scenario_opts scenario_race)))))
                 = Resolve [ {| vcl_name := "main.vcl"; vcl_content := "old main" |};
                             {| vcl_name := "legacy.vcl"; vcl_content := "old legacy" |} ])
    by (vm_compute; reflexivity).
  assert (Hthrow : fst (delete_old sim_client 6
                          (snd (open_version scenario_world "vcl" scenario_opts
                                  scenario_race)))
                   = Throw (Raised (Foreign "quick failure")))
    by (vm_compute; reflexivity).
  split; [exact Hthrow|].
  destruct (proj1 (X9_first_rejection_is_thrown sim_client 6 []
                     (snd (open_version scenario_world "vcl" scenario_opts
                             scenario_race))) _ _ Hold Hthrow)
    as (p & r & _ & Hf & He & Hearly).
  injection He as <-. exists p. split; [exact Hf|exact Hearly].
Defined.
